(** * Contact directory (task.py): value types, Record, AddressBook

    A shallow embedding of the core classes of [task.py] -- [Field], [Name],
    [Phone], [Birthday], [Record], [AddressBook] -- together with the parts
    of the Python runtime they call into ([str.isdigit], [len],
    [datetime.strptime], [date.replace], date comparison and subtraction,
    [strftime], [repr]).

    Conventions.
    - A Python [str] is a Rocq [string] read as a sequence of code points in
      the range U+0000..U+00FF (one [ascii] per code point).
    - A raised exception is a value [Raise e]; methods that mutate [self]
      are state transformers whose state survives a raise, as the Python
      object does.
    - The wall clock ([datetime.today()], [datetime.now()]) is an explicit
      argument [now] of every function that reads it. *)

From Stdlib Require Import ZArith List String Ascii Bool Lia.
From Stdlib Require Import Numbers.DecimalString.
Import ListNotations.

Local Open Scope string_scope.
Local Open Scope Z_scope.

(* ===================================================================== *)
(** * Exceptions and results *)
(* ===================================================================== *)

(** The exception classes the program names: [ValueError] is the only one
    the core raises; [KeyError] and [IndexError] appear in the handlers'
    [except] clauses. *)
Inductive exception_class : Type :=
| ValueError
| KeyError
| IndexError.

Record exception : Type := Exception {
  exc_class : exception_class;
  exc_msg : string
}.

Inductive result (A : Type) : Type :=
| Return (a : A)
| Raise (e : exception).

Arguments Return {A} a.
Arguments Raise {A} e.

Definition raise_ {A : Type} (c : exception_class) (msg : string) : result A :=
  Raise (Exception c msg).

Definition bind {A B : Type} (r : result A) (k : A -> result B) : result B :=
  match r with
  | Return a => k a
  | Raise e => Raise e
  end.

Notation "x <- r ;; k" := (bind r (fun x => k))
  (at level 61, r at next level, right associativity).

(** [try: body except ValueError as e: handler e] *)
Definition try_except_ValueError {A : Type}
    (body : result A) (handler : exception -> result A) : result A :=
  match body with
  | Return a => Return a
  | Raise e =>
      match exc_class e with
      | ValueError => handler e
      | _ => Raise e
      end
  end.

Definition raises {A : Type} (r : result A) : bool :=
  match r with
  | Return _ => false
  | Raise _ => true
  end.

(** A method call on a mutable object of state [S]: the outcome and the
    object's state afterwards (also after a raise). *)
Definition method (S A : Type) : Type := S -> result A * S.

(* ===================================================================== *)
(** * Strings *)
(* ===================================================================== *)

Definition code (c : ascii) : Z := Z.of_N (N_of_ascii c).

Definition chr (n : Z) : ascii := ascii_of_N (Z.to_N n).

Definition len (s : string) : Z := Z.of_nat (String.length s).

(** [str.isdigit] on one code point: Numeric_Type Decimal or Digit.  Below
    U+0100 these are the ASCII digits and the superscripts U+00B2, U+00B3,
    U+00B9. *)
Definition char_isdigit (c : ascii) : bool :=
  let n := code c in
  ((48 <=? n) && (n <=? 57)) || (n =? 178) || (n =? 179) || (n =? 185).

(** [str.isdigit]: every character is a digit and there is at least one. *)
Definition isdigit (s : string) : bool :=
  negb (s =? "")%string && forallb char_isdigit (list_ascii_of_string s).

(** The regular expression class [\d] on a [str] pattern: category Nd, which
    below U+0100 is [0-9]. *)
Definition char_isdecimal (c : ascii) : bool :=
  let n := code c in (48 <=? n) && (n <=? 57).

Definition digit_value (c : ascii) : Z := code c - 48.

Definition digit_char (k : Z) : ascii := chr (48 + k).

(** [str(n)] for an [int]. *)
Definition str_int (n : Z) : string := NilZero.string_of_int (Z.to_int n).

(** Lower-case hexadecimal digit. *)
Definition hex_char (k : Z) : ascii :=
  if k <? 10 then chr (48 + k) else chr (87 + k).

Definition is_printable (c : ascii) : bool :=
  let n := code c in
  negb ((n <? 32) || ((127 <=? n) && (n <=? 160)) || (n =? 173)).

Definition quote1 : ascii := "'"%char.
Definition quote2 : ascii := "034"%char.
Definition backslash : ascii := "\"%char.

Fixpoint contains_char (c : ascii) (s : string) : bool :=
  match s with
  | EmptyString => false
  | String a s' => Ascii.eqb a c || contains_char c s'
  end.

Definition repr_char (quote c : ascii) : string :=
  let n := code c in
  if Ascii.eqb c quote || Ascii.eqb c backslash then String backslash (String c "")
  else if n =? 9 then String backslash "t"
  else if n =? 10 then String backslash "n"
  else if n =? 13 then String backslash "r"
  else if is_printable c then String c ""
  else String backslash (String "x" (String (hex_char (n / 16)) (String (hex_char (n mod 16)) ""))).

Fixpoint repr_chars (quote : ascii) (s : string) : string :=
  match s with
  | EmptyString => ""
  | String c s' => repr_char quote c ++ repr_chars quote s'
  end.

(** [repr(s)] for a [str]: single quotes unless the text holds a single
    quote and no double quote. *)
Definition repr_str (s : string) : string :=
  let quote :=
    if contains_char quote1 s && negb (contains_char quote2 s)
    then quote2 else quote1 in
  String quote (repr_chars quote s ++ String quote "").

Fixpoint join (sep : string) (l : list string) : string :=
  match l with
  | [] => ""
  | [x] => x
  | x :: rest => x ++ sep ++ join sep rest
  end.

(** Python values that the query builds and returns. *)
#[warnings="-register-all"] Inductive object : Type :=
| Str (s : string)
| List (items : list object)
| Dict (items : list (object * object)).

Fixpoint repr (o : object) : string :=
  match o with
  | Str s => repr_str s
  | List items => "[" ++ join ", " (map repr items) ++ "]"
  | Dict items =>
      "{" ++ join ", " (map (fun kv => repr (fst kv) ++ ": " ++ repr (snd kv)) items) ++ "}"
  end.

(* ===================================================================== *)
(** * Dates ([datetime.date], [datetime.datetime]) *)
(* ===================================================================== *)

Record date : Type := mkdate {
  year : Z;
  month : Z;
  day : Z
}.

Definition MINYEAR : Z := 1.
Definition MAXYEAR : Z := 9999.

Definition is_leap (y : Z) : bool :=
  (y mod 4 =? 0) && (negb (y mod 100 =? 0) || (y mod 400 =? 0)).

Definition days_in_month (y m : Z) : Z :=
  if (m =? 2) && is_leap y then 29
  else nth (Z.to_nat m) [-1; 31; 28; 31; 30; 31; 30; 31; 31; 30; 31; 30; 31] (-1).

Definition days_before_year (y : Z) : Z :=
  let y' := y - 1 in
  y' * 365 + y' / 4 - y' / 100 + y' / 400.

Definition days_before_month (y m : Z) : Z :=
  nth (Z.to_nat m) [-1; 0; 31; 59; 90; 120; 151; 181; 212; 243; 273; 304; 334] (-1)
  + (if (2 <? m) && is_leap y then 1 else 0).

(** [date(y, m, d)]: the constructor checks its fields. *)
Definition date_new (y m d : Z) : result date :=
  if negb ((MINYEAR <=? y) && (y <=? MAXYEAR)) then
    raise_ ValueError ("year " ++ str_int y ++ " is out of range")
  else if negb ((1 <=? m) && (m <=? 12)) then
    raise_ ValueError "month must be in 1..12"
  else if negb ((1 <=? d) && (d <=? days_in_month y m)) then
    raise_ ValueError "day is out of range for month"
  else Return (mkdate y m d).

(** The values a [date] object can hold. *)
Definition valid_date (d : date) : bool :=
  (MINYEAR <=? year d) && (year d <=? MAXYEAR)
  && (1 <=? month d) && (month d <=? 12)
  && (1 <=? day d) && (day d <=? days_in_month (year d) (month d)).

(** [d.replace(year=y)] *)
Definition replace_year (d : date) (y : Z) : result date :=
  date_new y (month d) (day d).

(** [d.toordinal()] *)
Definition toordinal (d : date) : Z :=
  days_before_year (year d) + days_before_month (year d) (month d) + day d.

(** Tuple comparison, as Python compares the field tuples of two dates. *)
Fixpoint tuple_compare (a b : list Z) : comparison :=
  match a, b with
  | [], [] => Eq
  | [], _ :: _ => Lt
  | _ :: _, [] => Gt
  | x :: a', y :: b' =>
      match x ?= y with
      | Eq => tuple_compare a' b'
      | c => c
      end
  end.

Definition date_tuple (d : date) : list Z := [year d; month d; day d].

(** [a < b] on dates *)
Definition date_ltb (a b : date) : bool :=
  match tuple_compare (date_tuple a) (date_tuple b) with
  | Lt => true
  | _ => false
  end.

(** [(a - b).days] *)
Definition days_between (a b : date) : Z := toordinal a - toordinal b.

Record datetime : Type := mkdatetime {
  dt_date : date;
  hour : Z;
  minute : Z;
  second : Z;
  microsecond : Z
}.

Definition valid_datetime (t : datetime) : bool :=
  valid_date (dt_date t)
  && (0 <=? hour t) && (hour t <=? 23)
  && (0 <=? minute t) && (minute t <=? 59)
  && (0 <=? second t) && (second t <=? 59)
  && (0 <=? microsecond t) && (microsecond t <=? 999999).

Definition datetime_tuple (t : datetime) : list Z :=
  date_tuple (dt_date t) ++ [hour t; minute t; second t; microsecond t].

(** [a > b] on datetimes *)
Definition datetime_gtb (a b : datetime) : bool :=
  match tuple_compare (datetime_tuple a) (datetime_tuple b) with
  | Gt => true
  | _ => false
  end.

Definition pad2 (n : Z) : string :=
  String (digit_char (n / 10)) (String (digit_char (n mod 10)) "").

Definition pad4 (n : Z) : string :=
  String (digit_char (n / 1000))
    (String (digit_char (n / 100 mod 10))
      (String (digit_char (n / 10 mod 10))
        (String (digit_char (n mod 10)) ""))).

(** [d.strftime('%d.%m.%Y')]: two-digit day and month, the year with
    century as documented (0001 .. 9999). *)
Definition strftime_dmY (d : date) : string :=
  pad2 (day d) ++ "." ++ pad2 (month d) ++ "." ++ pad4 (year d).

(* ===================================================================== *)
(** * [datetime.strptime(text, "%d.%m.%Y")] *)
(* ===================================================================== *)

(** The format compiles to the regular expression
    [(?P<d>3[0-1]|[1-2]\d|0[1-9]|[1-9]| [1-9])\.(?P<m>1[0-2]|0[1-9]|[1-9])\.(?P<Y>\d\d\d\d)],
    matched at the start of the text by a backtracking matcher.  A matcher
    for a piece of it lists the ways that piece matches a prefix, in the
    order they are tried: the text matched and the text left. *)
Definition matcher : Type := string -> list (string * string).

Definition between (lo hi c : ascii) : bool :=
  (code lo <=? code c) && (code c <=? code hi).

Definition one (p : ascii -> bool) : matcher := fun s =>
  match s with
  | String a rest => if p a then [(String a "", rest)] else []
  | _ => []
  end.

Definition two (p q : ascii -> bool) : matcher := fun s =>
  match s with
  | String a (String b rest) =>
      if p a && q b then [(String a (String b ""), rest)] else []
  | _ => []
  end.

Definition alt (r1 r2 : matcher) : matcher := fun s => (r1 s ++ r2 s)%list.

Definition re_d : matcher :=
  alt (two (between "3" "3") (between "0" "1"))
   (alt (two (between "1" "2") char_isdecimal)
    (alt (two (between "0" "0") (between "1" "9"))
     (alt (one (between "1" "9"))
          (two (between " " " ") (between "1" "9"))))).

Definition re_m : matcher :=
  alt (two (between "1" "1") (between "0" "2"))
   (alt (two (between "0" "0") (between "1" "9"))
        (one (between "1" "9"))).

Definition re_Y : matcher := fun s =>
  match s with
  | String a (String b (String c (String d rest))) =>
      if char_isdecimal a && char_isdecimal b && char_isdecimal c && char_isdecimal d
      then [(String a (String b (String c (String d ""))), rest)] else []
  | _ => []
  end.

Definition re_dot : matcher := one (between "." ".").

(** Sequencing: each way [r] matches, in order, followed by each way the
    rest of the expression matches what is left. *)
Definition then_ {B : Type} (r : matcher) (k : string -> string -> list B)
    : string -> list B :=
  fun s => flat_map (fun m => k (fst m) (snd m)) (r s).

(** The first match of the whole expression: the three groups and the text
    left after the match. *)
Definition re_match_dmY (s : string) : option (string * string * string * string) :=
  hd_error
    (then_ re_d (fun d =>
     then_ re_dot (fun _ =>
     then_ re_m (fun m =>
     then_ re_dot (fun _ =>
     then_ re_Y (fun Y rest => [(d, m, Y, rest)]))))) s).

(** [int(text)] on a matched group: surrounding blanks are skipped, the
    rest are decimal digits. *)
Fixpoint int_digits (acc : Z) (s : string) : Z :=
  match s with
  | EmptyString => acc
  | String c s' =>
      if Ascii.eqb c " " then int_digits acc s'
      else int_digits (acc * 10 + digit_value c) s'
  end.

Definition int_of (s : string) : Z := int_digits 0 s.

Definition strptime_dmY (data_string : string) : result datetime :=
  match re_match_dmY data_string with
  | None =>
      raise_ ValueError
        ("time data " ++ repr_str data_string ++ " does not match format '%d.%m.%Y'")
  | Some (d, m, Y, rest) =>
      if negb (rest =? "")%string then
        raise_ ValueError ("unconverted data remains: " ++ rest)
      else
        dte <- date_new (int_of Y) (int_of m) (int_of d) ;;
        Return (mkdatetime dte 0 0 0 0)
  end.

(* ===================================================================== *)
(** * Value types: [Field], [Name], [Phone], [Birthday] *)
(* ===================================================================== *)

Record Field (V : Type) : Type := mkField { value : V }.

Arguments mkField {V} value.
Arguments value {V} f.

Module Name.
Definition t : Type := Field string.

Definition __init__ (value : string) : result t :=
  if (value =? "")%string || (len value <? 2) then
    raise_ ValueError "Name is required and must contain more than 2 symbols"
  else Return (mkField value).
End Name.

Module Phone.
Definition t : Type := Field string.

Definition __init__ (value : string) : result t :=
  if negb (isdigit value) || negb (len value =? 10) then
    raise_ ValueError "Phone number should contain 10 digits"
  else Return (mkField value).
End Phone.

Module Birthday.
Definition t : Type := Field date.

Definition __init__ (now : datetime) (value : string) : result t :=
  birthday_object <-
    try_except_ValueError (strptime_dmY value)
      (fun _ => raise_ ValueError "Invalid date format. Use DD.MM.YYYY") ;;
  if datetime_gtb birthday_object now then
    raise_ ValueError "Birthday can't be in future"
  else Return (mkField (dt_date birthday_object)).
End Birthday.

(* ===================================================================== *)
(** * Methods on mutable objects *)
(* ===================================================================== *)

Definition lift {S A : Type} (r : result A) : method S A := fun s => (r, s).

Definition modify {S : Type} (f : S -> S) : method S unit :=
  fun s => (Return tt, f s).

Definition bindM {S A B : Type} (m : method S A) (k : A -> method S B) : method S B :=
  fun s =>
    match m s with
    | (Return a, s') => k a s'
    | (Raise e, s') => (Raise e, s')
    end.

Notation "x <~ m ;; k" := (bindM m (fun x => k))
  (at level 61, m at next level, right associativity).

(* ===================================================================== *)
(** * [Record] *)
(* ===================================================================== *)

Module Record.

Record t : Type := mk {
  name : Name.t;
  phones : list Phone.t;
  birthday : option Birthday.t
}.

Definition set_phones (ps : list Phone.t) (self : t) : t :=
  mk (name self) ps (birthday self).

Definition set_birthday (b : option Birthday.t) (self : t) : t :=
  mk (name self) (phones self) b.

Definition __init__ (name : string) : result t :=
  n <- Name.__init__ name ;;
  Return (mk n [] None).

Definition add_birthday (now : datetime) (date : string) : method t unit :=
  b <~ lift (Birthday.__init__ now date) ;;
  modify (set_birthday (Some b)).

Definition add_phone (number : string) : method t unit :=
  p <~ lift (Phone.__init__ number) ;;
  modify (fun self => set_phones (phones self ++ [p]) self).

Definition delete_phone (number : string) : method t unit :=
  modify (fun self =>
    set_phones
      (filter (fun phone => negb (value phone =? number)%string) (phones self))
      self).

Fixpoint find_phone_in (number : string) (ps : list Phone.t) : option Phone.t :=
  match ps with
  | [] => None
  | phone :: rest =>
      if (number =? value phone)%string then Some phone
      else find_phone_in number rest
  end.

Definition find_phone (number : string) (self : t) : option Phone.t :=
  find_phone_in number (phones self).

Definition edit_phone (old_number new_number : string) : method t unit :=
  fun self =>
    match find_phone old_number self with
    | Some _ =>
        (new_phone <~
           lift (try_except_ValueError (Phone.__init__ new_number)
                   (fun e => raise_ ValueError ("Invalid phone number: " ++ exc_msg e))) ;;
         _ <~ delete_phone old_number ;;
         modify (fun self => set_phones (phones self ++ [new_phone]) self)) self
    | None => lift (raise_ ValueError "Phone number not found") self
    end.

End Record.

(* ===================================================================== *)
(** * [dict] with [str] keys, in insertion order *)
(* ===================================================================== *)

Section Dict.
Context {V : Type}.

Definition dict : Type := list (string * V).

Definition dict_keys (d : dict) : list string := map fst d.

Definition dict_values (d : dict) : list V := map snd d.

(** [k in d] *)
Definition dict_contains (k : string) (d : dict) : bool :=
  existsb (fun kv => (fst kv =? k)%string) d.

(** [d.get(k, None)] *)
Fixpoint dict_get (k : string) (d : dict) : option V :=
  match d with
  | [] => None
  | (k', v) :: rest => if (k' =? k)%string then Some v else dict_get k rest
  end.

(** [d[k] = v]: a present key keeps its place, a new key goes last. *)
Fixpoint dict_setitem (k : string) (v : V) (d : dict) : dict :=
  match d with
  | [] => [(k, v)]
  | (k', v') :: rest =>
      if (k' =? k)%string then (k', v) :: rest
      else (k', v') :: dict_setitem k v rest
  end.

Definition other_key (k : string) (kv : string * V) : bool :=
  negb (fst kv =? k)%string.

(** [del d[k]] *)
Definition dict_delitem (k : string) (d : dict) : result dict :=
  if dict_contains k d then Return (filter (other_key k) d)
  else raise_ KeyError (repr_str k).

(** Keys of a [dict] are pairwise different. *)
Definition dict_wf (d : dict) : Prop := NoDup (dict_keys d).

End Dict.

Arguments dict V : clear implicits.

(* ===================================================================== *)
(** * [AddressBook] *)
(* ===================================================================== *)

(** [for x in xs: acc = body x acc], stopping at the first raise. *)
Fixpoint for_each {A S : Type} (body : A -> S -> result S) (xs : list A) (acc : S)
    : result S :=
  match xs with
  | [] => Return acc
  | x :: rest =>
      match body x acc with
      | Return acc' => for_each body rest acc'
      | Raise e => Raise e
      end
  end.

Module AddressBook.

Record t : Type := mk { data : dict Record.t }.

Definition empty : t := mk [].

Definition add_record (record : Record.t) : method t unit :=
  modify (fun self =>
    mk (dict_setitem (value (Record.name record)) record (data self))).

Definition find (name : string) (self : t) : option Record.t :=
  dict_get name (data self).

Definition delete (name : string) : method t unit :=
  fun self =>
    if dict_contains name (data self) then
      match dict_delitem name (data self) with
      | Return d => (Return tt, mk d)
      | Raise e => (Raise e, self)
      end
    else lift (raise_ ValueError "Contact not found") self.

Definition entry (record : Record.t) (birthday_this_year : date) : object :=
  Dict [ (Str "Name", Str (value (Record.name record)));
         (Str "birthday date", Str (strftime_dmY birthday_this_year)) ].

(** The body of the loop over [self.data.values()]. *)
Definition loop_body (today : date) (days : Z) (record : Record.t)
    (upcoming_birthdays : list object) : result (list object) :=
  match Record.birthday record with
  | Some b =>
      let birthday := value b in
      birthday_this_year <- replace_year birthday (year today) ;;
      birthday_this_year <-
        (if date_ltb birthday_this_year today
         then replace_year birthday_this_year (year today + 1)
         else Return birthday_this_year) ;;
      let days_until_birthday := days_between birthday_this_year today in
      if (0 <=? days_until_birthday) && (days_until_birthday <=? days)
      then Return (upcoming_birthdays ++ [entry record birthday_this_year])%list
      else Return upcoming_birthdays
  | None => Return upcoming_birthdays
  end.

Definition report (days : Z) (upcoming_birthdays : list object) : string :=
  if (0 <? Z.of_nat (List.length upcoming_birthdays)) then
    "Birthdays in the next " ++ str_int days ++ " days: "
      ++ repr (List upcoming_birthdays)
  else "No one has birthday in the next " ++ str_int days ++ " days.".

Definition get_upcoming_birthdays (now : datetime) (self : t) : result object :=
  let today := dt_date now in
  let days := 7 in
  upcoming_birthdays <-
    for_each (loop_body today days) (dict_values (data self)) [] ;;
  Return (Str (report days upcoming_birthdays)).

End AddressBook.

(* ===================================================================== *)
(** * Notions used to state the properties *)
(* ===================================================================== *)

(** ** Observations on records and directories *)

Definition chars (s : string) : list ascii := list_ascii_of_string s.

(** The test of the comprehension in [delete_phone]. *)
Definition keeps (number : string) (phone : Phone.t) : bool :=
  negb (value phone =? number)%string.

Definition keys (book : AddressBook.t) : list string :=
  dict_keys (AddressBook.data book).

Definition values (book : AddressBook.t) : list Record.t :=
  dict_values (AddressBook.data book).

(** The invariant of the underlying [dict]: no key occurs twice. *)
Definition book_wf (book : AddressBook.t) : Prop :=
  dict_wf (AddressBook.data book).

(** ** The specification's words *)

(** The pattern [^\d{10}$] as the specification reads it: exactly ten
    decimal digit characters and nothing else. *)
Definition matches_ten_decimal_digits (s : string) : bool :=
  (len s =? 10) && forallb char_isdecimal (chars s).

(** The specification's error kinds.  A caller tells failures apart by the
    class of the exception it catches, so a kind is a function of the
    class. *)
Inductive error_kind : Type :=
| ValidationError
| NotFoundError.

(** The specification's [nextOccurrence]: the birthday's month and day in
    today's year, moved to the following year when that date is strictly
    before today. *)
Definition next_occurrence (today birthday : date) : date :=
  let this_year := mkdate (year today) (month birthday) (day birthday) in
  if date_ltb this_year today
  then mkdate (year today + 1) (month birthday) (day birthday)
  else this_year.

(** The specification's [daysUntil]. *)
Definition days_until (today birthday : date) : Z :=
  days_between (next_occurrence today birthday) today.

Definition is_upcoming (within_days : Z) (today birthday : date) : bool :=
  (0 <=? days_until today birthday) && (days_until today birthday <=? within_days).

(** The records the specification includes. *)
Definition included (within_days : Z) (today : date) (record : Record.t) : bool :=
  match Record.birthday record with
  | Some b => is_upcoming within_days today (value b)
  | None => false
  end.

(** The entry the query builds for an included record. *)
Definition entry_of (today : date) (record : Record.t) : object :=
  match Record.birthday record with
  | Some b => AddressBook.entry record (next_occurrence today (value b))
  | None => Dict []
  end.

(** The text the query returns for a list of entries. *)
Definition message (entries : list object) : string :=
  match entries with
  | [] => "No one has birthday in the next 7 days."
  | _ => "Birthdays in the next 7 days: " ++ repr (List entries)
  end.

Definition is_leap_day (d : date) : bool := (month d =? 2) && (day d =? 29).

(** Every stored birthday is a date that [replace] can move to today's year
    and the next: a valid date other than 29 February. *)
Definition plain_birthdays (records : list Record.t) : Prop :=
  forall record b, In record records -> Record.birthday record = Some b ->
    valid_date (value b) = true /\ is_leap_day (value b) = false.

(** ** What [strptime] accepts *)

(** The texts [%d] accepts for day [d] and [%m] for month [m]: two digits,
    or for a value below 10 the digit alone, or for a day a blank and the
    digit. *)
Definition day_texts (d : Z) : list string :=
  if d <? 10
  then [pad2 d; String (digit_char d) ""; String " " (String (digit_char d) "")]
  else [pad2 d].

Definition month_texts (m : Z) : list string :=
  if m <? 10 then [pad2 m; String (digit_char m) ""] else [pad2 m].

(** The texts [strptime] reads as the date [dte] under ["%d.%m.%Y"]. *)
Definition parses_as (s : string) (dte : date) : Prop :=
  exists dt mt,
    In dt (day_texts (day dte)) /\ In mt (month_texts (month dte))
    /\ s = dt ++ "." ++ mt ++ "." ++ pad4 (year dte).

Definition char_range (lo hi : ascii) : list ascii :=
  map (fun k => chr (code lo + Z.of_nat k))
      (seq 0 (Z.to_nat (code hi - code lo + 1))).

Definition Z_range (lo hi : Z) : list Z :=
  map (fun k => lo + Z.of_nat k) (seq 0 (Z.to_nat (hi - lo + 1))).

(** ** Concrete inputs *)

(** Ten superscript twos (U+00B2). *)
Definition superscript_twos : string :=
  String "178" (String "178" (String "178" (String "178" (String "178"
  (String "178" (String "178" (String "178" (String "178" (String "178" ""))))))))).

(** A record with one phone, and one where a number is stored twice. *)
Definition al_one_phone : Record.t :=
  Record.mk (mkField "Al") [mkField "1111111111"] None.

Definition al_three_phones : Record.t :=
  Record.mk (mkField "Al")
    [mkField "1111111111"; mkField "2222222222"; mkField "1111111111"] None.

(** A directory holding Bob, and two records named Ann. *)
Definition bob_book : AddressBook.t :=
  snd (AddressBook.add_record (Record.mk (mkField "Bob") [] None) AddressBook.empty).

Definition ann_first : Record.t :=
  Record.mk (mkField "Ann") [mkField "1111111111"] None.

Definition ann_second : Record.t := Record.mk (mkField "Ann") [] None.

(** The clock and a record of the specification's example. *)
Definition june_now : datetime := mkdatetime (mkdate 2024 6 10) 9 0 0 0.

Definition june_ann : Record.t :=
  Record.mk (mkField "Ann") [] (Some (mkField (mkdate 1990 6 15))).

Definition june_book : AddressBook.t :=
  snd (AddressBook.add_record june_ann AddressBook.empty).

(** A directory with a leap-day birthday, built through the public
    operations, and a clock in a year that is not a leap year. *)
Definition leap_now : datetime := mkdatetime (mkdate 2026 11 3) 14 31 0 0.

Definition leap_ann : Record.t :=
  Record.mk (mkField "Ann") [] (Some (mkField (mkdate 1999 11 3))).

Definition leap_bob : Record.t :=
  Record.mk (mkField "Bob") [] (Some (mkField (mkdate 2000 2 29))).

Definition leap_book : AddressBook.t :=
  snd (AddressBook.add_record leap_bob
    (snd (AddressBook.add_record leap_ann AddressBook.empty))).

(* ===================================================================== *)
(** * More of the runtime: text operations of the command layer *)
(* ===================================================================== *)

(** [str.isspace] on one code point.  Below U+0100 the white space
    characters are U+0009..U+000D, U+001C..U+0020, U+0085 and U+00A0. *)
Definition char_isspace (c : ascii) : bool :=
  let n := code c in
  ((9 <=? n) && (n <=? 13)) || ((28 <=? n) && (n <=? 32))
  || (n =? 133) || (n =? 160).

(** [s.split()]: the maximal runs of characters that are not white space,
    in order.  [cur] is the run being read. *)
Fixpoint split_from (s : string) (cur : string) : list string :=
  match s with
  | EmptyString => if (cur =? "")%string then [] else [cur]
  | String c s' =>
      if char_isspace c then
        if (cur =? "")%string then split_from s' ""
        else cur :: split_from s' ""
      else split_from s' (cur ++ String c "")
  end.

Definition split (s : string) : list string := split_from s "".

Fixpoint lstrip (s : string) : string :=
  match s with
  | EmptyString => ""
  | String c s' => if char_isspace c then lstrip s' else s
  end.

Fixpoint rstrip (s : string) : string :=
  match s with
  | EmptyString => ""
  | String c s' =>
      let r := rstrip s' in
      if char_isspace c && (r =? "")%string then "" else String c r
  end.

(** [s.strip()] *)
Definition strip (s : string) : string := rstrip (lstrip s).

(** Lower case of one code point: A-Z and U+00C0..U+00DE except the
    multiplication sign U+00D7. *)
Definition char_lower (c : ascii) : ascii :=
  let n := code c in
  if ((65 <=? n) && (n <=? 90))
     || ((192 <=? n) && (n <=? 222) && negb (n =? 215))
  then chr (n + 32) else c.

(** [s.lower()] *)
Fixpoint lower (s : string) : string :=
  match s with
  | EmptyString => ""
  | String c s' => String (char_lower c) (lower s')
  end.

(** Title case of one code point, as [capitalize] applies it to the first
    character: a-z and U+00E0..U+00FE except the division sign U+00F7 go to
    their capitals, U+00DF to "Ss".  The title forms of U+00B5 and U+00FF
    are code points above U+00FF, which a [string] here does not hold:
    [None]. *)
Definition char_title (c : ascii) : option string :=
  let n := code c in
  if (n =? 181) || (n =? 255) then None
  else if n =? 223 then Some "Ss"
  else if ((97 <=? n) && (n <=? 122))
          || ((224 <=? n) && (n <=? 254) && negb (n =? 247))
  then Some (String (chr (n - 32)) "")
  else Some (String c "").

(** [s.capitalize()]: the first character in title case, the others in
    lower case; [None] when the result is not a text over U+0000..U+00FF. *)
Definition capitalize (s : string) : option string :=
  match s with
  | EmptyString => Some ""
  | String c rest =>
      match char_title c with
      | Some t => Some (t ++ lower rest)
      | None => None
      end
  end.

(** [str(d)] for a date: [d.isoformat()], "%04d-%02d-%02d". *)
Definition isoformat (d : date) : string :=
  pad4 (year d) ++ "-" ++ pad2 (month d) ++ "-" ++ pad2 (day d).

Definition newline : string := String "010" "".

(* ===================================================================== *)
(** * Text renderings: [__str__] *)
(* ===================================================================== *)

(** [Record.__str__]: the birthday is shown through [str] of the stored
    date, the phones in their stored order. *)
Definition Record_str (self : Record.t) : string :=
  let birthday_str :=
    match Record.birthday self with
    | Some b => isoformat (value b)
    | None => "No birthday"
    end in
  "Contact name: " ++ value (Record.name self)
    ++ ", phones: " ++ join "; " (map value (Record.phones self))
    ++ ", birthday: " ++ birthday_str.

(** [AddressBook.__str__] *)
Definition AddressBook_str (self : AddressBook.t) : string :=
  "Your contacts:" ++ newline
    ++ join newline (map Record_str (dict_values (AddressBook.data self))).

(* ===================================================================== *)
(** * The command layer: [parse_input], [input_error], the handlers *)
(* ===================================================================== *)

Definition ret {S A : Type} (a : A) : method S A := fun s => (Return a, s).

Definition gets {S A : Type} (f : S -> A) : method S A := fun s => (Return (f s), s).

(** A method call on the record object that the directory holds under
    [key]: the handlers obtain the object from [find] (or have just put it
    there with [add_record]) and mutate it in place, so the directory sees
    the change, also when the call raises. *)
Definition on_record {A : Type} (key : string) (record : Record.t)
    (m : method Record.t A) : method AddressBook.t A :=
  fun book =>
    let (r, record') := m record in
    (r, AddressBook.mk (dict_setitem key record' (AddressBook.data book))).

(** What a handler returns and [main] prints. *)
Inductive reply : Type :=
| Text (s : string)
| RecordObj (record : Record.t)
| BirthdayObj (birthday : option Birthday.t)
| Obj (o : object).

(** [str(x)], as [print] applies it to a reply. *)
Definition str_of_reply (r : reply) : string :=
  match r with
  | Text s => s
  | RecordObj record => Record_str record
  | BirthdayObj (Some b) => isoformat (value b)
  | BirthdayObj None => "None"
  | Obj (Str s) => s
  | Obj o => repr o
  end.

(** [cmd, *args = user_input.split()]; [cmd.strip().lower()] *)
Definition parse_input (user_input : string) : result (string * list string) :=
  match split user_input with
  | cmd :: args => Return (lower (strip cmd), args)
  | [] => raise_ ValueError "not enough values to unpack (expected at least 1, got 0)"
  end.

(** The body of a handler: a method on the directory, or [None] when the
    capitalized name is not a text over U+0000..U+00FF. *)
Definition handler_body : Type :=
  AddressBook.t -> option (result reply * AddressBook.t).

(** A decorated handler always returns. *)
Definition handler : Type := AddressBook.t -> option (reply * AddressBook.t).

Definition input_error (func : handler_body) : handler :=
  fun book =>
    match func book with
    | Some (Return r, book') => Some (r, book')
    | Some (Raise e, book') =>
        Some (Text (match exc_class e with
                    | ValueError => "Give me name and phone please."
                    | KeyError => "Contact not found..."
                    | IndexError => "Enter a valid command with necessary arguments."
                    end), book')
    | None => None
    end.

(** The error of a starred assignment that finds too few values. *)
Definition unpack_error (expected : Z) (args : list string) : handler_body :=
  fun book =>
    Some (raise_ ValueError
            ("not enough values to unpack (expected at least " ++ str_int expected
               ++ ", got " ++ str_int (Z.of_nat (List.length args)) ++ ")"),
          book).

(** [name = name.capitalize()], then the rest of the body. *)
Definition capitalized (name : string) (k : string -> method AddressBook.t reply)
    : handler_body :=
  fun book =>
    match capitalize name with
    | Some name' => Some (k name' book)
    | None => None
    end.

Definition add_contact_body (args : list string) : handler_body :=
  match args with
  | name :: phone :: _ =>
      capitalized name (fun name =>
        rm <~ (fun book =>
                 match AddressBook.find name book with
                 | None =>
                     (record <~ lift (Record.__init__ name) ;;
                      _ <~ AddressBook.add_record record ;;
                      ret (record, "Contact added.")) book
                 | Some record => ret (record, "Contact updated.") book
                 end) ;;
        _ <~ (if negb (phone =? "")%string
              then on_record name (fst rm) (Record.add_phone phone)
              else ret tt) ;;
        ret (Text (snd rm)))
  | _ => unpack_error 2 args
  end.

Definition add_contact (args : list string) : handler :=
  input_error (add_contact_body args).

Definition change_contact_body (args : list string) : handler_body :=
  match args with
  | name :: old_phone :: new_phone :: _ =>
      capitalized name (fun name book =>
        match AddressBook.find name book with
        | Some record =>
            (_ <~ on_record name record (Record.edit_phone old_phone new_phone) ;;
             ret (Text "Contact updated")) book
        | None => ret (Text "Contact not found") book
        end)
  | _ => unpack_error 3 args
  end.

Definition change_contact (args : list string) : handler :=
  input_error (change_contact_body args).

Definition delete_number_body (args : list string) : handler_body :=
  match args with
  | name :: phone :: _ =>
      capitalized name (fun name book =>
        match AddressBook.find name book with
        | Some record =>
            (_ <~ on_record name record (Record.delete_phone phone) ;;
             ret (Text "Phone number deleted.")) book
        | None => ret (Text "Contact not found") book
        end)
  | _ => unpack_error 2 args
  end.

Definition delete_number (args : list string) : handler :=
  input_error (delete_number_body args).

Definition delete_contact_body (args : list string) : handler_body :=
  match args with
  | name :: _ =>
      capitalized name (fun name =>
        _ <~ AddressBook.delete name ;;
        ret (Text "Contact deleted."))
  | _ => unpack_error 1 args
  end.

Definition delete_contact (args : list string) : handler :=
  input_error (delete_contact_body args).

Definition show_phone_body (args : list string) : handler_body :=
  match args with
  | name :: _ =>
      capitalized name (fun name book =>
        match AddressBook.find name book with
        | Some record => ret (RecordObj record) book
        | None => ret (Text "Contact not found.") book
        end)
  | _ => unpack_error 1 args
  end.

Definition show_phone (args : list string) : handler :=
  input_error (show_phone_body args).

Definition add_birthday_body (now : datetime) (args : list string) : handler_body :=
  match args with
  | name :: birthday :: _ =>
      capitalized name (fun name book =>
        match AddressBook.find name book with
        | Some record =>
            (_ <~ on_record name record (Record.add_birthday now birthday) ;;
             ret (Text ("Birthday added to contact " ++ name))) book
        | None => ret (Text "Contact not found.") book
        end)
  | _ => unpack_error 2 args
  end.

Definition add_birthday (now : datetime) (args : list string) : handler :=
  input_error (add_birthday_body now args).

Definition show_birthday_body (args : list string) : handler_body :=
  match args with
  | name :: _ =>
      capitalized name (fun name book =>
        match AddressBook.find name book with
        | Some record => ret (BirthdayObj (Record.birthday record)) book
        | None => ret (Text "Contact not found.") book
        end)
  | _ => unpack_error 1 args
  end.

Definition show_birthday (args : list string) : handler :=
  input_error (show_birthday_body args).

Definition birthdays_body (now : datetime) : handler_body :=
  fun book =>
    Some (o <- AddressBook.get_upcoming_birthdays now book ;; Return (Obj o), book).

Definition birthdays (now : datetime) : handler := input_error (birthdays_body now).

(* ===================================================================== *)
(** * [main] *)
(* ===================================================================== *)

(** What the program writes: the prompt of [input] and the lines of
    [print]. *)
Inductive event : Type :=
| Prompt (text : string)
| Printed (text : string).

(** How a run over a finite input ends: by [break], by an exception that
    leaves [main], blocked in [input] for the next line, or outside the
    texts this development represents. *)
Inductive ending : Type :=
| Exited
| Crashed (e : exception)
| Waiting (book : AddressBook.t)
| Unrepresentable.

(** One pass through the [match] of the loop. *)
Inductive step : Type :=
| Break (printed : string)
| Next (printed : string) (book : AddressBook.t).

Definition print_reply (h : handler) (book : AddressBook.t) : option step :=
  match h book with
  | Some (r, book') => Some (Next (str_of_reply r) book')
  | None => None
  end.

Definition dispatch (now : datetime) (command : string) (args : list string)
    (book : AddressBook.t) : option step :=
  if (command =? "exit")%string || (command =? "close")%string then
    Some (Break "Good bye!")
  else if (command =? "hello")%string then Some (Next "How can I help you?" book)
  else if (command =? "add")%string then print_reply (add_contact args) book
  else if (command =? "change")%string then print_reply (change_contact args) book
  else if (command =? "delete-number")%string then print_reply (delete_number args) book
  else if (command =? "delete")%string then print_reply (delete_contact args) book
  else if (command =? "phone")%string then print_reply (show_phone args) book
  else if (command =? "all")%string then Some (Next (AddressBook_str book) book)
  else if (command =? "add-birthday")%string then print_reply (add_birthday now args) book
  else if (command =? "show-birthday")%string then print_reply (show_birthday args) book
  else if (command =? "birthdays")%string then print_reply (birthdays now) book
  else Some (Next "Invalid command." book).

(** The [while True] loop over the lines the user enters, each with the
    reading of the clock while it is handled. *)
Fixpoint main_loop (inputs : list (datetime * string)) (book : AddressBook.t)
    : list event * ending :=
  match inputs with
  | [] => ([Prompt "Enter a command: "], Waiting book)
  | (now, user_input) :: rest =>
      match parse_input user_input with
      | Raise e => ([Prompt "Enter a command: "], Crashed e)
      | Return (command, args) =>
          match dispatch now command args book with
          | None => ([Prompt "Enter a command: "], Unrepresentable)
          | Some (Break printed) =>
              ([Prompt "Enter a command: "; Printed printed], Exited)
          | Some (Next printed book') =>
              let (events, e) := main_loop rest book' in
              (Prompt "Enter a command: " :: Printed printed :: events, e)
          end
      end
  end.

Definition main (inputs : list (datetime * string)) : list event * ending :=
  let (events, e) := main_loop inputs AddressBook.empty in
  (Printed "Welcome to the assistant bot!" :: events, e).

(* ===================================================================== *)
(** * Invariants and conditions of the further properties *)
(* ===================================================================== *)

(** What [Phone] checks, on a stored phone. *)
Definition phone_valid (p : Phone.t) : bool :=
  isdigit (value p) && (len (value p) =? 10).

(** What the constructors guarantee of a record: a name of at least two
    characters, phones that pass [Phone], a birthday that is a date. *)
Definition record_ok (r : Record.t) : bool :=
  (2 <=? len (value (Record.name r)))
  && forallb phone_valid (Record.phones r)
  && match Record.birthday r with
     | Some b => valid_date (value b)
     | None => true
     end.

(** Every record is stored under its own name. *)
Definition keys_named (book : AddressBook.t) : bool :=
  forallb (fun kv => (fst kv =? value (Record.name (snd kv)))%string)
          (AddressBook.data book).

(** The birthdays on which the year replacement of the query fails: 29
    February, when today's year is not a leap year or today is already
    past 29 February. *)
Definition breaks_query (today birthday : date) : bool :=
  is_leap_day birthday
  && (negb (is_leap (year today)) || date_ltb (mkdate (year today) 2 29) today).

Definition record_breaks (today : date) (record : Record.t) : bool :=
  match Record.birthday record with
  | Some b => breaks_query today (value b)
  | None => false
  end.

Definition valid_birthdays (records : list Record.t) : Prop :=
  forall record b, In record records -> Record.birthday record = Some b ->
    valid_date (value b) = true.

(** A word of a command line: not empty, no white space in it. *)
Definition is_word (t : string) : bool :=
  negb (t =? "")%string && forallb (fun c => negb (char_isspace c)) (chars t).

(** A line of white space only (the empty line included). *)
Definition is_blank (s : string) : bool := forallb char_isspace (chars s).

(** All code points of the model. *)
Definition all_chars : list ascii := char_range "000" "255".

(** The record [Record(name)] builds. *)
Definition new_record (name : string) : Record.t := Record.mk (mkField name) [] None.

(** The directory with the record under [key] replaced by [record]. *)
Definition with_record (key : string) (record : Record.t) (book : AddressBook.t)
    : AddressBook.t :=
  AddressBook.mk (dict_setitem key record (AddressBook.data book)).

(** The texts of [input_error]. *)
Definition ValueError_text : string := "Give me name and phone please.".
Definition KeyError_text : string := "Contact not found...".
Definition IndexError_text : string := "Enter a valid command with necessary arguments.".

(** What holds of every directory the program builds: pairwise different
    keys, every record under its own name, every record as the
    constructors guarantee. *)
Definition book_ok (book : AddressBook.t) : Prop :=
  book_wf book /\ keys_named book = true /\ forallb record_ok (values book) = true.

(** The decorated handlers of the program. *)
Definition all_handlers (now : datetime) (args : list string) : list handler :=
  [ add_contact args; change_contact args; delete_number args; delete_contact args;
    show_phone args; add_birthday now args; show_birthday args; birthdays now ].

(** A handler that never answers with the texts for [KeyError] and
    [IndexError] and keeps [book_ok]. *)
Definition well_behaved (h : handler) : Prop :=
  forall book r book',
    h book = Some (r, book') ->
    (r <> Text KeyError_text /\ r <> Text IndexError_text)
    /\ (book_ok book -> book_ok book').

(** A record with two phones, for the examples. *)
Definition al_two_phones : Record.t :=
  Record.mk (mkField "Al") [mkField "1111111111"; mkField "2222222222"] None.

(* ===================================================================== *)
(** * Basic facts: results, strings *)
(* ===================================================================== *)

Lemma eqb_empty_len (s : string) : (s =? "")%string = (len s =? 0).
Proof. destruct s; reflexivity. Qed.

Lemma char_isdecimal_isdigit (c : ascii) :
  char_isdecimal c = true -> char_isdigit c = true.
Proof.
  unfold char_isdecimal, char_isdigit; cbv zeta; intros ->; reflexivity.
Qed.

Lemma char_isdigit_ascii (c : ascii) :
  code c < 128 -> char_isdigit c = char_isdecimal c.
Proof.
  unfold char_isdecimal, char_isdigit; cbv zeta; intros H.
  replace (code c =? 178) with false by (symmetry; apply Z.eqb_neq; lia).
  replace (code c =? 179) with false by (symmetry; apply Z.eqb_neq; lia).
  replace (code c =? 185) with false by (symmetry; apply Z.eqb_neq; lia).
  now rewrite !orb_false_r.
Qed.

Lemma forallb_ext_in {A : Type} (f g : A -> bool) (l : list A) :
  (forall x, In x l -> f x = g x) -> forallb f l = forallb g l.
Proof.
  induction l as [|x l IH]; simpl; intros H; [reflexivity|].
  rewrite H by now left. rewrite IH; [reflexivity|]. intros; apply H; now right.
Qed.

Lemma forallb_impl {A : Type} (f g : A -> bool) (l : list A) :
  (forall x, f x = true -> g x = true) -> forallb f l = true -> forallb g l = true.
Proof.
  intros H; induction l as [|x l IH]; simpl; [reflexivity|].
  rewrite !andb_true_iff; intros [Hx Hl]; split; auto.
Qed.

(* ===================================================================== *)
(** * [Name] *)
(* ===================================================================== *)

Lemma Name_init_short (s : string) :
  len s < 2 ->
  Name.__init__ s =
    raise_ ValueError "Name is required and must contain more than 2 symbols".
Proof.
  intros H; unfold Name.__init__.
  replace (len s <? 2) with true by (symmetry; apply Z.ltb_lt; lia).
  now rewrite orb_true_r.
Qed.

Lemma Name_init_long (s : string) :
  2 <= len s -> Name.__init__ s = Return (mkField s).
Proof.
  intros H; unfold Name.__init__.
  rewrite eqb_empty_len.
  replace (len s =? 0) with false by (symmetry; apply Z.eqb_neq; lia).
  replace (len s <? 2) with false by (symmetry; apply Z.ltb_ge; lia).
  reflexivity.
Qed.

(** No method of [Record] assigns to [self.name]. *)
Lemma Record_add_phone_name number self :
  Record.name (snd (Record.add_phone number self)) = Record.name self.
Proof.
  unfold Record.add_phone, bindM, lift, modify.
  destruct (Phone.__init__ number); reflexivity.
Qed.

Lemma Record_delete_phone_name number self :
  Record.name (snd (Record.delete_phone number self)) = Record.name self.
Proof. reflexivity. Qed.

Lemma Record_add_birthday_name now text self :
  Record.name (snd (Record.add_birthday now text self)) = Record.name self.
Proof.
  unfold Record.add_birthday, bindM, lift, modify.
  destruct (Birthday.__init__ now text); reflexivity.
Qed.

Lemma Record_edit_phone_name old_number new_number self :
  Record.name (snd (Record.edit_phone old_number new_number self)) = Record.name self.
Proof.
  unfold Record.edit_phone, bindM, lift, modify, Record.delete_phone.
  destruct (Record.find_phone old_number self); [|reflexivity].
  destruct (try_except_ValueError _ _); reflexivity.
Qed.

(** C7: for every string [s], [Name(s)] raises the validation error
    ([ValueError]) when [s] is empty or shorter than 2, and returns a value
    storing [s] unchanged when its length is at least 2; afterwards the
    name is never reassigned: every mutating method of [Record] leaves
    [self.name] as it was. *)
Theorem C7_Name_validation (s : string) :
  ((s = "" \/ len s < 2) ->
     exists msg, Name.__init__ s = Raise (Exception ValueError msg))
  /\ (2 <= len s ->
        exists n, Name.__init__ s = Return n /\ value n = s)
  /\ (forall (self : Record.t) (now : datetime) (a b : string),
        Record.name (snd (Record.add_phone a self)) = Record.name self
        /\ Record.name (snd (Record.delete_phone a self)) = Record.name self
        /\ Record.name (snd (Record.edit_phone a b self)) = Record.name self
        /\ Record.name (snd (Record.add_birthday now a self)) = Record.name self).
Proof.
  split; [|split].
  - intros H. eexists. apply Name_init_short.
    destruct H as [-> | H]; [reflexivity | exact H].
  - intros H. exists (mkField s). split; [now apply Name_init_long | reflexivity].
  - intros self now a b.
    repeat split; auto using Record_add_phone_name, Record_delete_phone_name,
      Record_edit_phone_name, Record_add_birthday_name.
Qed.

Lemma C7_Name_validation_witness :
  (exists msg, Name.__init__ "A" = Raise (Exception ValueError msg))
  /\ (exists n, Name.__init__ "Al" = Return n /\ value n = "Al").
Proof.
  split.
  - apply (proj1 (C7_Name_validation "A")). right. reflexivity.
  - apply (proj1 (proj2 (C7_Name_validation "Al"))). discriminate.
Defined.

(* ===================================================================== *)
(** * [Phone] *)
(* ===================================================================== *)

Lemma Phone_init_eq (s : string) :
  Phone.__init__ s =
    if (len s =? 10) && forallb char_isdigit (chars s)
    then Return (mkField s)
    else raise_ ValueError "Phone number should contain 10 digits".
Proof.
  unfold Phone.__init__, isdigit. fold (chars s).
  rewrite eqb_empty_len.
  destruct (len s =? 10) eqn:E10.
  - apply Z.eqb_eq in E10. rewrite E10. simpl.
    destruct (forallb char_isdigit (chars s)); reflexivity.
  - simpl. now rewrite orb_true_r.
Qed.

Lemma matches_ten_decimal_digits_accepted (s : string) :
  matches_ten_decimal_digits s = true -> Phone.__init__ s = Return (mkField s).
Proof.
  unfold matches_ten_decimal_digits.
  rewrite andb_true_iff. intros [Hl Hd].
  rewrite Phone_init_eq, Hl.
  now rewrite (forallb_impl _ _ _ char_isdecimal_isdigit Hd).
Qed.

(** C5, as stated, fails: ten superscript digits pass [str.isdigit] and the
    length test, so [Phone] accepts a text that is not ten decimal digits. *)
Lemma C5_Phone_counterexample :
  ~ ((exists p, Phone.__init__ superscript_twos = Return p)
     <-> matches_ten_decimal_digits superscript_twos = true).
Proof.
  intros [H _].
  assert (E : matches_ten_decimal_digits superscript_twos = true).
  { apply H. eexists. reflexivity. }
  vm_compute in E. discriminate E.
Qed.

(** C5 (amended): for every string [s], [Phone(s)] succeeds exactly when [s]
    has ten characters, each a digit for [str.isdigit] (the ASCII digits
    and the superscript digits U+00B2, U+00B3, U+00B9 among the code points
    below U+0100); every text matching [^\d{10}$] is accepted, and for a
    text of ASCII characters acceptance is equivalent to matching
    [^\d{10}$].  A failure is a [ValueError]; on success the stored value is
    [s] itself. *)
Theorem C5_Phone_validation (s : string) :
  ((exists p, Phone.__init__ s = Return p)
     <-> (len s = 10 /\ forallb char_isdigit (chars s) = true))
  /\ (forall p, Phone.__init__ s = Return p -> value p = s)
  /\ (forall e, Phone.__init__ s = Raise e -> exc_class e = ValueError)
  /\ (matches_ten_decimal_digits s = true ->
        Phone.__init__ s = Return (mkField s))
  /\ (Forall (fun c => code c < 128) (chars s) ->
        ((exists p, Phone.__init__ s = Return p)
           <-> matches_ten_decimal_digits s = true)).
Proof.
  assert (Hiff : (exists p, Phone.__init__ s = Return p)
     <-> (len s = 10 /\ forallb char_isdigit (chars s) = true)).
  { rewrite Phone_init_eq. split.
    - intros [p Hp].
      destruct (len s =? 10) eqn:E; [|discriminate Hp].
      destruct (forallb char_isdigit (chars s)); [|discriminate Hp].
      split; [now apply Z.eqb_eq | reflexivity].
    - intros [Hl Hd]. apply Z.eqb_eq in Hl. rewrite Hl, Hd.
      eexists; reflexivity. }
  split; [exact Hiff|].
  split; [|split; [|split]].
  - rewrite Phone_init_eq. intros p Hp.
    destruct ((len s =? 10) && forallb char_isdigit (chars s));
      [now inversion Hp | discriminate Hp].
  - rewrite Phone_init_eq. intros e He.
    destruct ((len s =? 10) && forallb char_isdigit (chars s));
      [discriminate He | now inversion He].
  - apply matches_ten_decimal_digits_accepted.
  - intros Hascii. rewrite Hiff. unfold matches_ten_decimal_digits.
    rewrite andb_true_iff, Z.eqb_eq.
    rewrite (forallb_ext_in char_isdigit char_isdecimal); [reflexivity|].
    intros c Hc. apply char_isdigit_ascii.
    rewrite Forall_forall in Hascii. now apply Hascii.
Qed.

Lemma C5_Phone_validation_witness :
  Phone.__init__ "1234567890" = Return (mkField "1234567890")
  /\ value (mkField "1234567890") = "1234567890"
  /\ exc_class (Exception ValueError "Phone number should contain 10 digits") = ValueError
  /\ ((exists p, Phone.__init__ "0501234567" = Return p)
        <-> matches_ten_decimal_digits "0501234567" = true).
Proof.
  split; [|split; [|split]].
  - apply (proj1 (proj2 (proj2 (proj2 (C5_Phone_validation "1234567890"))))).
    reflexivity.
  - apply (proj1 (proj2 (C5_Phone_validation "1234567890"))). reflexivity.
  - apply (proj1 (proj2 (proj2 (C5_Phone_validation "12-34")))). reflexivity.
  - apply (proj2 (proj2 (proj2 (proj2 (C5_Phone_validation "0501234567"))))).
    repeat constructor.
Defined.

(* ===================================================================== *)
(** * [Record]: phones *)
(* ===================================================================== *)

Lemma delete_phone_eq number self :
  Record.delete_phone number self =
    (Return tt, Record.set_phones (filter (keeps number) (Record.phones self)) self).
Proof. reflexivity. Qed.

Lemma filter_keeps_all number (ps : list Phone.t) :
  ~ In number (map value ps) -> filter (keeps number) ps = ps.
Proof.
  induction ps as [|p ps IH]; simpl; intros H; [reflexivity|].
  unfold keeps at 1.
  destruct (String.eqb_spec (value p) number) as [E|E]; simpl.
  - exfalso; apply H; now left.
  - f_equal. apply IH. intros Hin; apply H; now right.
Qed.

Lemma filter_keeps_none number (ps : list Phone.t) :
  ~ In number (map value (filter (keeps number) ps)).
Proof.
  rewrite in_map_iff. intros [p [Hv Hp]].
  apply filter_In in Hp. destruct Hp as [_ Hk].
  unfold keeps in Hk. rewrite Hv, String.eqb_refl in Hk. discriminate Hk.
Qed.

Lemma filter_keeps_others number (ps : list Phone.t) (p : Phone.t) :
  value p <> number -> (In p (filter (keeps number) ps) <-> In p ps).
Proof.
  intros Hne. rewrite filter_In. unfold keeps.
  destruct (String.eqb_spec (value p) number) as [E|E]; [contradiction|].
  simpl; tauto.
Qed.

Lemma set_phones_same self : Record.set_phones (Record.phones self) self = self.
Proof. destruct self; reflexivity. Qed.

Lemma find_phone_in_none number ps :
  Record.find_phone_in number ps = None <-> ~ In number (map value ps).
Proof.
  induction ps as [|p ps IH]; simpl; [tauto|].
  destruct (String.eqb_spec number (value p)) as [E|E].
  - split; [discriminate | intros H; exfalso; apply H; left; now symmetry].
  - rewrite IH. split.
    + intros H [H1|H1]; [now symmetry in H1 | contradiction].
    + intros H H1; apply H; now right.
Qed.

Lemma find_phone_in_some number ps :
  In number (map value ps) -> exists p, Record.find_phone_in number ps = Some p.
Proof.
  intros H. destruct (Record.find_phone_in number ps) as [p|] eqn:E.
  - now exists p.
  - apply find_phone_in_none in E. contradiction.
Qed.

Lemma count_occ_filter_keeps number (ps : list Phone.t) (v : string) :
  v <> number ->
  count_occ string_dec (map value (filter (keeps number) ps)) v
  = count_occ string_dec (map value ps) v.
Proof.
  intros Hne. induction ps as [|p ps IH]; simpl; [reflexivity|].
  unfold keeps at 1.
  destruct (String.eqb_spec (value p) number) as [E|E]; simpl.
  - destruct (string_dec (value p) v) as [E'|E']; [congruence | exact IH].
  - destruct (string_dec (value p) v); now rewrite IH.
Qed.

(** C8: for every record and every string [number], [delete_phone(number)]
    raises nothing and rebuilds the phone sequence as the phones whose
    value differs from [number], in their stored order: no phone equal to
    [number] is left (all occurrences go, not only the first), every other
    phone stays as often as it occurred, name and birthday are untouched,
    and when no stored phone matches the record is unchanged. *)
Theorem C8_delete_phone (self : Record.t) (number : string) :
  let self' := snd (Record.delete_phone number self) in
  fst (Record.delete_phone number self) = Return tt
  /\ Record.phones self' = filter (keeps number) (Record.phones self)
  /\ ~ In number (map value (Record.phones self'))
  /\ (forall p, value p <> number ->
        (In p (Record.phones self') <-> In p (Record.phones self))
        /\ count_occ string_dec (map value (Record.phones self')) (value p)
           = count_occ string_dec (map value (Record.phones self)) (value p))
  /\ Record.name self' = Record.name self
  /\ Record.birthday self' = Record.birthday self
  /\ (~ In number (map value (Record.phones self)) -> self' = self).
Proof.
  intros self'. subst self'. rewrite delete_phone_eq. simpl.
  split; [reflexivity|].
  split; [reflexivity|].
  split; [apply filter_keeps_none|].
  split.
  { intros p Hp. split.
    - now apply filter_keeps_others.
    - now apply count_occ_filter_keeps. }
  split; [reflexivity|].
  split; [reflexivity|].
  intros H. rewrite (filter_keeps_all _ _ H). apply set_phones_same.
Qed.

Lemma C8_delete_phone_witness :
  Record.phones (snd (Record.delete_phone "1111111111" al_three_phones))
    = [mkField "2222222222"]
  /\ snd (Record.delete_phone "9999999999" al_three_phones) = al_three_phones
  /\ (In (mkField "2222222222")
        (Record.phones (snd (Record.delete_phone "1111111111" al_three_phones)))
      <-> In (mkField "2222222222") (Record.phones al_three_phones)).
Proof.
  pose proof (C8_delete_phone al_three_phones "1111111111") as H1.
  pose proof (C8_delete_phone al_three_phones "9999999999") as H2.
  split; [|split].
  - exact (proj1 (proj2 H1)).
  - apply (proj2 (proj2 (proj2 (proj2 (proj2 (proj2 H2)))))).
    simpl. intros [H|[H|[H|[]]]]; discriminate H.
  - apply (proj1 (proj2 (proj2 (proj2 H1))) (mkField "2222222222")).
    discriminate.
Defined.

(** C4: [edit_phone(old_number, new_number)] raises [ValueError] and leaves
    the record as it was when no stored phone equals [old_number]; raises
    [ValueError] and leaves the record as it was when [old_number] is
    stored but [Phone(new_number)] is rejected; and otherwise returns with
    every occurrence of [old_number] removed and one phone holding
    [new_number] appended at the end of the sequence. *)
Theorem C4_edit_phone (self : Record.t) (old_number new_number : string) :
  (~ In old_number (map value (Record.phones self)) ->
     Record.edit_phone old_number new_number self
     = (Raise (Exception ValueError "Phone number not found"), self))
  /\ (In old_number (map value (Record.phones self)) ->
      raises (Phone.__init__ new_number) = true ->
      exists msg,
        Record.edit_phone old_number new_number self
        = (Raise (Exception ValueError msg), self))
  /\ (In old_number (map value (Record.phones self)) ->
      raises (Phone.__init__ new_number) = false ->
      Record.edit_phone old_number new_number self
      = (Return tt,
         Record.set_phones
           (filter (keeps old_number) (Record.phones self) ++ [mkField new_number])
           self)
      /\ ~ In old_number (map value (filter (keeps old_number) (Record.phones self)))).
Proof.
  unfold Record.edit_phone, Record.find_phone.
  split; [|split].
  - intros H. apply find_phone_in_none in H. now rewrite H.
  - intros H Hr. destruct (find_phone_in_some _ _ H) as [p ->].
    rewrite Phone_init_eq in *.
    destruct ((len new_number =? 10) && forallb char_isdigit (chars new_number));
      [discriminate Hr|].
    eexists. reflexivity.
  - intros H Hr. destruct (find_phone_in_some _ _ H) as [p ->].
    rewrite Phone_init_eq in *.
    destruct ((len new_number =? 10) && forallb char_isdigit (chars new_number));
      [|discriminate Hr].
    split; [reflexivity | apply filter_keeps_none].
Qed.

Lemma C4_edit_phone_witness :
  Record.edit_phone "9999999999" "2222222222" al_one_phone
    = (Raise (Exception ValueError "Phone number not found"), al_one_phone)
  /\ (exists msg, Record.edit_phone "1111111111" "22" al_one_phone
        = (Raise (Exception ValueError msg), al_one_phone))
  /\ Record.edit_phone "1111111111" "2222222222" al_one_phone
    = (Return tt, Record.mk (mkField "Al") [mkField "2222222222"] None).
Proof.
  split; [|split].
  - apply (proj1 (C4_edit_phone al_one_phone "9999999999" "2222222222")).
    simpl. intros [H|[]]; discriminate H.
  - apply (proj1 (proj2 (C4_edit_phone al_one_phone "1111111111" "22"))).
    + simpl. now left.
    + reflexivity.
  - apply (proj2 (proj2 (C4_edit_phone al_one_phone "1111111111" "2222222222"))).
    + simpl. now left.
    + reflexivity.
Defined.

(* ===================================================================== *)
(** * [dict] facts *)
(* ===================================================================== *)

Section DictFacts.
Context {V : Type}.
Implicit Types (d : dict V) (k : string) (v : V).

Lemma dict_contains_In k d : dict_contains k d = true <-> In k (dict_keys d).
Proof.
  unfold dict_contains, dict_keys. rewrite existsb_exists, in_map_iff.
  split.
  - intros [kv [H1 H2]]. exists kv. apply String.eqb_eq in H2. tauto.
  - intros [kv [H1 H2]]. exists kv. rewrite H1, String.eqb_refl. tauto.
Qed.

Lemma dict_contains_not_In k d : dict_contains k d = false <-> ~ In k (dict_keys d).
Proof.
  rewrite <- dict_contains_In. destruct (dict_contains k d); split; congruence.
Qed.

Lemma dict_get_None k d : dict_get k d = None <-> ~ In k (dict_keys d).
Proof.
  induction d as [|[k' v'] d IH]; simpl; [tauto|].
  destruct (String.eqb_spec k' k) as [E|E].
  - split; [discriminate | intros H; exfalso; apply H; now left].
  - rewrite IH. tauto.
Qed.

Lemma dict_get_setitem_eq k v d : dict_get k (dict_setitem k v d) = Some v.
Proof.
  induction d as [|[k' v'] d IH]; simpl.
  - now rewrite String.eqb_refl.
  - destruct (String.eqb_spec k' k) as [E|E]; simpl.
    + subst. now rewrite String.eqb_refl.
    + destruct (String.eqb_spec k' k); [contradiction | exact IH].
Qed.

Lemma dict_get_setitem_ne k k' v d :
  k' <> k -> dict_get k' (dict_setitem k v d) = dict_get k' d.
Proof.
  intros Hne. induction d as [|[k0 v0] d IH]; simpl.
  - destruct (String.eqb_spec k k'); [congruence | reflexivity].
  - destruct (String.eqb_spec k0 k) as [E|E]; simpl.
    + subst. destruct (String.eqb_spec k k'); [congruence | reflexivity].
    + destruct (String.eqb_spec k0 k'); [reflexivity | exact IH].
Qed.

Lemma dict_keys_setitem k v d :
  dict_keys (dict_setitem k v d)
  = if dict_contains k d then dict_keys d else (dict_keys d ++ [k])%list.
Proof.
  induction d as [|[k' v'] d IH]; simpl; [reflexivity|].
  destruct (String.eqb_spec k' k) as [E|E]; simpl; [reflexivity|].
  unfold dict_keys in *. rewrite IH.
  fold (dict_contains k d). destruct (dict_contains k d); reflexivity.
Qed.

Lemma dict_setitem_In k v d : In k (dict_keys (dict_setitem k v d)).
Proof.
  rewrite dict_keys_setitem. destruct (dict_contains k d) eqn:E.
  - now apply dict_contains_In.
  - apply in_or_app. right. now left.
Qed.

Lemma dict_wf_setitem k v d : dict_wf d -> dict_wf (dict_setitem k v d).
Proof.
  unfold dict_wf. intros H. rewrite dict_keys_setitem.
  destruct (dict_contains k d) eqn:E; [exact H|].
  apply dict_contains_not_In in E.
  apply NoDup_app; [exact H | constructor; [intros [] | constructor] |].
  intros x Hx [<-|[]]. contradiction.
Qed.

Lemma dict_delitem_present k d :
  In k (dict_keys d) -> dict_delitem k d = Return (filter (other_key k) d).
Proof.
  intros H. apply dict_contains_In in H. unfold dict_delitem. now rewrite H.
Qed.

Lemma dict_keys_filter k d :
  dict_keys (filter (other_key k) d)
  = filter (fun k' => negb (k' =? k)%string) (dict_keys d).
Proof.
  induction d as [|[k' v'] d IH]; simpl; [reflexivity|].
  unfold other_key at 1; simpl.
  destruct (k' =? k)%string; simpl; [exact IH | now f_equal].
Qed.

Lemma dict_get_filter_eq k d : dict_get k (filter (other_key k) d) = None.
Proof.
  apply dict_get_None. rewrite dict_keys_filter, filter_In.
  rewrite String.eqb_refl. intros [_ H]; discriminate H.
Qed.

Lemma dict_get_filter_ne k k' d :
  k' <> k -> dict_get k' (filter (other_key k) d) = dict_get k' d.
Proof.
  intros Hne. induction d as [|[k0 v0] d IH]; simpl; [reflexivity|].
  unfold other_key at 1; simpl.
  destruct (String.eqb_spec k0 k) as [E|E]; simpl.
  - subst. destruct (String.eqb_spec k k'); [congruence | exact IH].
  - now rewrite IH.
Qed.

Lemma dict_wf_filter k d : dict_wf d -> dict_wf (filter (other_key k) d).
Proof.
  unfold dict_wf. rewrite dict_keys_filter. apply NoDup_filter.
Qed.

Lemma filter_other_key_absent k d :
  ~ In k (dict_keys d) -> filter (other_key k) d = d.
Proof.
  induction d as [|[k' v'] d IH]; simpl; intros H; [reflexivity|].
  unfold other_key at 1; simpl.
  destruct (String.eqb_spec k' k) as [E|E]; simpl.
  - exfalso; apply H; now left.
  - f_equal. apply IH. tauto.
Qed.

Lemma length_filter_other_key k d :
  dict_wf d -> In k (dict_keys d) ->
  S (List.length (filter (other_key k) d)) = List.length d.
Proof.
  unfold dict_wf. induction d as [|[k' v'] d IH]; simpl; intros Hwf Hin; [contradiction|].
  inversion Hwf as [|? ? Hnotin Hwf']; subst.
  unfold other_key at 1; simpl.
  destruct (String.eqb_spec k' k) as [E|E]; simpl.
  - subst. now rewrite filter_other_key_absent.
  - f_equal. apply IH; [exact Hwf' | tauto].
Qed.

End DictFacts.

(* ===================================================================== *)
(** * [AddressBook]: add_record, find, delete *)
(* ===================================================================== *)

Lemma book_wf_empty : book_wf AddressBook.empty.
Proof. constructor. Qed.

Lemma add_record_eq record book :
  AddressBook.add_record record book
  = (Return tt,
     AddressBook.mk
       (dict_setitem (value (Record.name record)) record (AddressBook.data book))).
Proof. reflexivity. Qed.

Lemma book_wf_add_record record book :
  book_wf book -> book_wf (snd (AddressBook.add_record record book)).
Proof. intros H. rewrite add_record_eq. simpl. now apply dict_wf_setitem. Qed.

Lemma In_count_occ_NoDup (l : list string) (k : string) :
  NoDup l -> In k l -> count_occ string_dec l k = 1%nat.
Proof.
  intros Hnd Hin.
  pose proof (proj1 (NoDup_count_occ string_dec l) Hnd k) as Hle.
  pose proof (proj1 (count_occ_In string_dec l k) Hin) as Hgt.
  lia.
Qed.

(** C9: [add_record] never raises, and adding two records that share a
    name leaves, for that name, exactly one entry holding the second
    record -- the second call replaces in place, adding no key -- while the
    entries under every other name are as they were. *)
Theorem C9_add_record (book : AddressBook.t) (r1 r2 : Record.t) :
  book_wf book ->
  value (Record.name r1) = value (Record.name r2) ->
  let name := value (Record.name r2) in
  let book1 := snd (AddressBook.add_record r1 book) in
  let book2 := snd (AddressBook.add_record r2 book1) in
  fst (AddressBook.add_record r1 book) = Return tt
  /\ fst (AddressBook.add_record r2 book1) = Return tt
  /\ AddressBook.find name book1 = Some r1
  /\ AddressBook.find name book2 = Some r2
  /\ keys book2 = keys book1
  /\ count_occ string_dec (keys book2) name = 1%nat
  /\ (forall other, other <> name ->
        AddressBook.find other book2 = AddressBook.find other book)
  /\ book_wf book2.
Proof.
  intros Hwf Hname name book1 book2.
  subst book1 book2. rewrite !add_record_eq. simpl.
  unfold AddressBook.find, keys. simpl. rewrite Hname. fold name.
  assert (Hin : In name (dict_keys (dict_setitem name r1 (AddressBook.data book)))).
  { apply dict_setitem_In. }
  assert (Hwf1 : dict_wf (dict_setitem name r1 (AddressBook.data book))).
  { now apply dict_wf_setitem. }
  assert (Hkeys : dict_keys (dict_setitem name r2 (dict_setitem name r1 (AddressBook.data book)))
                  = dict_keys (dict_setitem name r1 (AddressBook.data book))).
  { rewrite (dict_keys_setitem name r2).
    now rewrite (proj2 (dict_contains_In _ _) Hin). }
  split; [reflexivity|].
  split; [reflexivity|].
  split; [apply dict_get_setitem_eq|].
  split; [apply dict_get_setitem_eq|].
  split; [exact Hkeys|].
  split; [rewrite Hkeys; now apply In_count_occ_NoDup|].
  split.
  - intros other Hne. now rewrite !dict_get_setitem_ne.
  - unfold book_wf. simpl. now apply dict_wf_setitem.
Qed.

Lemma C9_add_record_witness :
  AddressBook.find "Ann"
    (snd (AddressBook.add_record ann_second
       (snd (AddressBook.add_record ann_first bob_book))))
    = Some ann_second
  /\ count_occ string_dec
       (keys (snd (AddressBook.add_record ann_second
                 (snd (AddressBook.add_record ann_first bob_book)))))
       "Ann" = 1%nat.
Proof.
  assert (Hwf : book_wf bob_book).
  { unfold book_wf, dict_wf. simpl. constructor; [intros [] | constructor]. }
  pose proof (C9_add_record bob_book ann_first ann_second Hwf eq_refl) as H.
  split.
  - exact (proj1 (proj2 (proj2 (proj2 H)))).
  - exact (proj1 (proj2 (proj2 (proj2 (proj2 (proj2 H)))))).
Defined.

Lemma delete_absent name book :
  ~ In name (keys book) ->
  AddressBook.delete name book
  = (Raise (Exception ValueError "Contact not found"), book).
Proof.
  intros H. apply dict_contains_not_In in H.
  unfold AddressBook.delete. now rewrite H.
Qed.

Lemma delete_present name book :
  In name (keys book) ->
  AddressBook.delete name book
  = (Return tt, AddressBook.mk (filter (other_key name) (AddressBook.data book))).
Proof.
  intros H. unfold AddressBook.delete.
  rewrite (dict_delitem_present _ _ H).
  apply dict_contains_In in H. now rewrite H.
Qed.

(** C3, as stated, fails: the error of [delete] on an absent key has the
    class of the validation errors, so no assignment of kinds to exception
    classes makes it a kind of its own. *)
Lemma C3_delete_counterexample :
  ~ exists kind_of : exception_class -> error_kind,
      (forall e, Phone.__init__ "12-34" = Raise e ->
                 kind_of (exc_class e) = ValidationError)
      /\ (forall e, fst (AddressBook.delete "Unknown" AddressBook.empty) = Raise e ->
                    kind_of (exc_class e) = NotFoundError).
Proof.
  intros [kind_of [Hv Hn]].
  specialize (Hv _ eq_refl). specialize (Hn _ eq_refl).
  simpl in Hv, Hn. rewrite Hv in Hn. discriminate Hn.
Qed.

(** C3 (amended): [delete(name)] raises exactly when [name] is not a key,
    and what it raises is a [ValueError] (message "Contact not found"), the
    class of the validation errors, leaving the directory as it was; when
    [name] is a key it returns, that entry alone is removed, and the other
    entries keep their records and their order.  On the empty directory
    [delete("Unknown")] raises that [ValueError]. *)
Theorem C3_delete (book : AddressBook.t) (name : string) :
  book_wf book ->
  let book' := snd (AddressBook.delete name book) in
  (raises (fst (AddressBook.delete name book)) = true <-> ~ In name (keys book))
  /\ (~ In name (keys book) ->
        AddressBook.delete name book
        = (Raise (Exception ValueError "Contact not found"), book))
  /\ (In name (keys book) ->
        fst (AddressBook.delete name book) = Return tt
        /\ AddressBook.find name book' = None
        /\ (forall other, other <> name ->
              AddressBook.find other book' = AddressBook.find other book)
        /\ AddressBook.data book' = filter (other_key name) (AddressBook.data book)
        /\ S (List.length (AddressBook.data book')) = List.length (AddressBook.data book)
        /\ book_wf book')
  /\ fst (AddressBook.delete "Unknown" AddressBook.empty)
     = Raise (Exception ValueError "Contact not found").
Proof.
  intros Hwf book'. subst book'.
  split; [|split; [|split]].
  - destruct (in_dec string_dec name (keys book)) as [I|I].
    + rewrite (delete_present _ _ I). simpl. split; [discriminate | contradiction].
    + rewrite (delete_absent _ _ I). simpl. tauto.
  - apply delete_absent.
  - intros I. rewrite (delete_present _ _ I). simpl.
    unfold AddressBook.find. simpl.
    split; [reflexivity|].
    split; [apply dict_get_filter_eq|].
    split; [intros other Hne; now apply dict_get_filter_ne|].
    split; [reflexivity|].
    split; [now apply length_filter_other_key|].
    now apply dict_wf_filter.
  - reflexivity.
Qed.

Lemma C3_delete_witness :
  AddressBook.delete "Ann" bob_book
    = (Raise (Exception ValueError "Contact not found"), bob_book)
  /\ fst (AddressBook.delete "Bob" bob_book) = Return tt
  /\ AddressBook.find "Bob" (snd (AddressBook.delete "Bob" bob_book)) = None.
Proof.
  assert (Hwf : book_wf bob_book).
  { unfold book_wf, dict_wf. simpl. constructor; [intros [] | constructor]. }
  split; [|split].
  - apply (proj1 (proj2 (C3_delete bob_book "Ann" Hwf))).
    simpl. intros [H|[]]; discriminate H.
  - apply (proj1 (proj2 (proj2 (C3_delete bob_book "Bob" Hwf)))).
    simpl. now left.
  - apply (proj1 (proj2 (proj2 (C3_delete bob_book "Bob" Hwf)))).
    simpl. now left.
Defined.

(* ===================================================================== *)
(** * The upcoming-birthdays query *)
(* ===================================================================== *)

Lemma date_new_raise (y m d : Z) (e : exception) :
  date_new y m d = Raise e -> exc_class e = ValueError.
Proof.
  unfold date_new, raise_.
  repeat match goal with
         | |- context [if ?c then _ else _] => destruct c
         end; intros H; inversion H; reflexivity.
Qed.

Lemma date_new_valid (y m d : Z) :
  valid_date (mkdate y m d) = true -> date_new y m d = Return (mkdate y m d).
Proof.
  unfold valid_date, date_new. simpl.
  rewrite !andb_true_iff. intros [[[[[H1 H2] H3] H4] H5] H6].
  now rewrite H1, H2, H3, H4, H5, H6.
Qed.

Lemma date_new_Return (y m d : Z) (dte : date) :
  date_new y m d = Return dte -> dte = mkdate y m d /\ valid_date dte = true.
Proof.
  unfold date_new, raise_, valid_date.
  destruct ((MINYEAR <=? y) && (y <=? MAXYEAR)) eqn:E1; simpl; [|discriminate].
  destruct ((1 <=? m) && (m <=? 12)) eqn:E2; simpl; [|discriminate].
  destruct ((1 <=? d) && (d <=? days_in_month y m)) eqn:E3; simpl; [|discriminate].
  intros H; inversion H; subst; simpl.
  apply andb_true_iff in E1, E2, E3.
  destruct E1 as [-> ->], E2 as [-> ->], E3 as [-> ->]. auto.
Qed.

Lemma days_in_month_plain (y y' m d : Z) :
  1 <= m <= 12 -> 1 <= d <= days_in_month y m ->
  (m =? 2) && (d =? 29) = false ->
  d <= days_in_month y' m.
Proof.
  intros Hm Hd Hplain.
  assert (Hcases : m = 1 \/ m = 2 \/ m = 3 \/ m = 4 \/ m = 5 \/ m = 6 \/ m = 7
                   \/ m = 8 \/ m = 9 \/ m = 10 \/ m = 11 \/ m = 12) by lia.
  unfold days_in_month in *.
  destruct Hcases as [->|[->|[->|[->|[->|[->|[->|[->|[->|[->|[->| ->]]]]]]]]]]];
    simpl in *; try lia.
  destruct (d =? 29) eqn:E; [discriminate|]. apply Z.eqb_neq in E.
  destruct (is_leap y), (is_leap y'); simpl in *; lia.
Qed.

Lemma replace_year_plain (b : date) (y : Z) :
  valid_date b = true -> is_leap_day b = false ->
  MINYEAR <= y <= MAXYEAR ->
  replace_year b y = Return (mkdate y (month b) (day b)).
Proof.
  intros Hv Hp Hy. unfold replace_year. apply date_new_valid.
  unfold valid_date in *. simpl.
  rewrite !andb_true_iff in *. rewrite !Z.leb_le in *.
  destruct Hv as [[[[[H1 H2] H3] H4] H5] H6].
  repeat split; try lia.
  apply (days_in_month_plain (year b)); auto.
Qed.

Lemma replace_year_leap_day (b : date) (y : Z) :
  month b = 2 -> day b = 29 -> is_leap y = false ->
  exists msg, replace_year b y = Raise (Exception ValueError msg).
Proof.
  intros Hm Hd Hl. unfold replace_year, date_new, raise_. rewrite Hm, Hd.
  destruct (negb ((MINYEAR <=? y) && (y <=? MAXYEAR))); [eexists; reflexivity|].
  simpl. unfold days_in_month. rewrite Hl. simpl. eexists; reflexivity.
Qed.

Lemma loop_body_raise today days record acc e :
  AddressBook.loop_body today days record acc = Raise e -> exc_class e = ValueError.
Proof.
  unfold AddressBook.loop_body.
  destruct (Record.birthday record) as [b|]; [|discriminate].
  destruct (replace_year (value b) (year today)) as [d1|e1] eqn:E1; simpl.
  - destruct (date_ltb d1 today).
    + destruct (replace_year d1 (year today + 1)) as [d2|e2] eqn:E2; simpl.
      * destruct (_ && _); discriminate.
      * intros H; inversion H; subst. apply (date_new_raise _ _ _ _ E2).
    + simpl. destruct (_ && _); discriminate.
  - intros H; inversion H; subst. apply (date_new_raise _ _ _ _ E1).
Qed.

Lemma loop_body_leap_day today days record b acc :
  Record.birthday record = Some b ->
  month (value b) = 2 -> day (value b) = 29 -> is_leap (year today) = false ->
  exists msg,
    AddressBook.loop_body today days record acc = Raise (Exception ValueError msg).
Proof.
  intros Hb Hm Hd Hl. unfold AddressBook.loop_body. rewrite Hb.
  destruct (replace_year_leap_day (value b) (year today) Hm Hd Hl) as [msg ->].
  exists msg. reflexivity.
Qed.

Lemma loop_body_plain today days record acc :
  valid_date today = true -> year today < MAXYEAR ->
  (forall b, Record.birthday record = Some b ->
             valid_date (value b) = true /\ is_leap_day (value b) = false) ->
  AddressBook.loop_body today days record acc
  = Return (if included days today record
            then (acc ++ [entry_of today record])%list else acc).
Proof.
  intros Hv Hy Hplain.
  unfold AddressBook.loop_body, included, entry_of.
  destruct (Record.birthday record) as [b|]; [|reflexivity].
  destruct (Hplain b eq_refl) as [Hvb Hpb].
  assert (Hty : MINYEAR <= year today <= MAXYEAR).
  { unfold valid_date in Hv. rewrite !andb_true_iff, !Z.leb_le in Hv. lia. }
  rewrite (replace_year_plain _ (year today) Hvb Hpb Hty). simpl.
  unfold is_upcoming, days_until, next_occurrence. cbv zeta.
  destruct (date_ltb (mkdate (year today) (month (value b)) (day (value b))) today).
  - unfold replace_year. simpl.
    assert (Hty' : MINYEAR <= year today + 1 <= MAXYEAR) by (unfold MINYEAR in *; lia).
    pose proof (replace_year_plain _ (year today + 1) Hvb Hpb Hty') as E.
    unfold replace_year in E. rewrite E. simpl.
    destruct (_ && _); reflexivity.
  - simpl. destruct (_ && _); reflexivity.
Qed.

Lemma for_each_plain today days records acc :
  valid_date today = true -> year today < MAXYEAR ->
  plain_birthdays records ->
  for_each (AddressBook.loop_body today days) records acc
  = Return (acc ++ map (entry_of today) (filter (included days today) records))%list.
Proof.
  intros Hv Hy. revert acc.
  induction records as [|record records IH]; intros acc Hplain; simpl.
  - now rewrite app_nil_r.
  - rewrite (loop_body_plain today days record acc Hv Hy).
    + assert (Hrest : plain_birthdays records).
      { intros r b Hr Hb. apply (Hplain r b); [now right | exact Hb]. }
      destruct (included days today record); simpl.
      * rewrite (IH _ Hrest). now rewrite <- app_assoc.
      * apply (IH _ Hrest).
    + intros b Hb. apply (Hplain record b); [now left | exact Hb].
Qed.

Lemma for_each_leap_day today days records record b :
  In record records -> Record.birthday record = Some b ->
  month (value b) = 2 -> day (value b) = 29 -> is_leap (year today) = false ->
  forall acc, exists msg,
    for_each (AddressBook.loop_body today days) records acc
    = Raise (Exception ValueError msg).
Proof.
  intros Hin Hb Hm Hd Hl.
  induction records as [|r records IH]; [contradiction|].
  intros acc. simpl.
  destruct (AddressBook.loop_body today days r acc) as [acc'|e] eqn:E.
  - destruct Hin as [->|Hin].
    + destruct (loop_body_leap_day today days record b acc Hb Hm Hd Hl) as [msg Hmsg].
      rewrite Hmsg in E. discriminate E.
    + apply (IH Hin).
  - pose proof (loop_body_raise _ _ _ _ _ E) as Hc.
    destruct e as [c msg]. simpl in Hc. subst c. now exists msg.
Qed.

(** C10: whenever the directory holds a record whose stored birthday is
    29 February and today's year is not a leap year, the query does not
    return: the year replacement fails and [get_upcoming_birthdays] raises
    a [ValueError], which nothing inside the query catches. *)
Theorem C10_leap_day_raises (now : datetime) (book : AddressBook.t)
    (record : Record.t) (b : Birthday.t) :
  In record (dict_values (AddressBook.data book)) ->
  Record.birthday record = Some b ->
  month (value b) = 2 -> day (value b) = 29 ->
  is_leap (year (dt_date now)) = false ->
  exists msg,
    AddressBook.get_upcoming_birthdays now book = Raise (Exception ValueError msg).
Proof.
  intros Hin Hb Hm Hd Hl. unfold AddressBook.get_upcoming_birthdays.
  destruct (for_each_leap_day (dt_date now) 7 _ record b Hin Hb Hm Hd Hl [])
    as [msg ->].
  exists msg. reflexivity.
Qed.

Lemma C10_leap_day_raises_witness :
  exists msg,
    AddressBook.get_upcoming_birthdays leap_now leap_book
    = Raise (Exception ValueError msg).
Proof.
  apply (C10_leap_day_raises leap_now leap_book leap_bob (mkField (mkdate 2000 2 29))).
  - simpl. right. now left.
  - reflexivity.
  - reflexivity.
  - reflexivity.
  - reflexivity.
Defined.

Lemma report_message (entries : list object) :
  AddressBook.report 7 entries = message entries.
Proof. destruct entries; reflexivity. Qed.

Lemma upcoming_birthdays_plain (now : datetime) (book : AddressBook.t) :
  valid_date (dt_date now) = true -> year (dt_date now) < MAXYEAR ->
  plain_birthdays (values book) ->
  AddressBook.get_upcoming_birthdays now book
  = Return (Str (message (map (entry_of (dt_date now))
                            (filter (included 7 (dt_date now)) (values book))))).
Proof.
  intros Hv Hy Hp. unfold AddressBook.get_upcoming_birthdays.
  fold (values book). rewrite (for_each_plain _ _ _ _ Hv Hy Hp). simpl bind.
  now rewrite report_message.
Qed.

Lemma values_add_record_new (record : Record.t) (book : AddressBook.t) :
  ~ In (value (Record.name record)) (keys book) ->
  values (snd (AddressBook.add_record record book)) = (values book ++ [record])%list.
Proof.
  unfold values, keys. rewrite add_record_eq. simpl.
  generalize (value (Record.name record)) as k.
  induction (AddressBook.data book) as [|[k' v'] d IH]; intros k H; simpl.
  - reflexivity.
  - destruct (String.eqb_spec k' k) as [E|E].
    + exfalso; apply H; now left.
    + simpl. f_equal. apply IH. intros Hin; apply H; now right.
Qed.

(** The query on the three records of the specification's example, with
    the clock at 2024-06-10: 15.06.1990 is 5 days away and 10.06.1999 is
    today, 01.06.1990 has passed and is counted for 2025. *)
Example upcoming_birthdays_example :
  days_until (dt_date june_now) (mkdate 1990 6 15) = 5
  /\ days_until (dt_date june_now) (mkdate 1990 6 1) = 356
  /\ days_until (dt_date june_now) (mkdate 1999 6 10) = 0
  /\ AddressBook.get_upcoming_birthdays june_now
       (snd (AddressBook.add_record
               (Record.mk (mkField "Cy") [] (Some (mkField (mkdate 1999 6 10))))
          (snd (AddressBook.add_record
                  (Record.mk (mkField "Bob") [] (Some (mkField (mkdate 1990 6 1))))
             june_book))))
     = Return (Str ("Birthdays in the next 7 days: "
         ++ "[{'Name': 'Ann', 'birthday date': '15.06.2024'}, "
         ++ "{'Name': 'Cy', 'birthday date': '10.06.2024'}]")).
Proof. vm_compute. repeat split. Qed.

(** C1 (the code at the failing input): with the clock at 2026-11-03 and a
    directory holding Ann (born 03.11.1999) and Bob (born 29.02.2000), both
    entered through [Record], [add_birthday] and [add_record], Ann's next
    occurrence is today (0 days away, inside the window), yet the query
    returns no list at all: replacing the year of Bob's birthday raises
    [ValueError]. *)
Theorem C1_query_fails_with_leap_day_record :
  (r <- Record.__init__ "Ann" ;; Return (Record.add_birthday leap_now "03.11.1999" r))
    = Return (Return tt, leap_ann)
  /\ (r <- Record.__init__ "Bob" ;; Return (Record.add_birthday leap_now "29.02.2000" r))
    = Return (Return tt, leap_bob)
  /\ values leap_book = [leap_ann; leap_bob]
  /\ next_occurrence (dt_date leap_now) (mkdate 1999 11 3) = mkdate 2026 11 3
  /\ days_until (dt_date leap_now) (mkdate 1999 11 3) = 0
  /\ included 7 (dt_date leap_now) leap_ann = true
  /\ AddressBook.get_upcoming_birthdays leap_now leap_book
     = Raise (Exception ValueError "day is out of range for month").
Proof. vm_compute. repeat split. Qed.

(** C2, as stated, fails: what the query returns is a text, not a
    sequence; on the empty directory it is the "No one ..." message. *)
Lemma C2_query_counterexample :
  AddressBook.get_upcoming_birthdays leap_now AddressBook.empty
    = Return (Str "No one has birthday in the next 7 days.")
  /\ ~ exists items,
       AddressBook.get_upcoming_birthdays leap_now AddressBook.empty
       = Return (List items).
Proof.
  split; [reflexivity|]. intros [items H]. discriminate H.
Qed.

(** C2 (amended): the query has no parameters: the window is fixed at 7
    days and today is the date of the clock.  With a valid clock before
    year 9999 and stored birthdays that are valid dates other than 29
    February, it returns a text: "No one has birthday in the next 7 days."
    when no record is included, and otherwise "Birthdays in the next 7
    days: " followed by the rendering of the list of entries
    [{'Name': name, 'birthday date': next occurrence as DD.MM.YYYY}], one
    entry per included record, in the order of the directory, which is the
    order in which the names were first added. *)
Theorem C2_query_result (now : datetime) (book : AddressBook.t) :
  valid_date (dt_date now) = true -> year (dt_date now) < MAXYEAR ->
  plain_birthdays (values book) ->
  let today := dt_date now in
  let shown := filter (included 7 today) (values book) in
  let entries := map (entry_of today) shown in
  AddressBook.get_upcoming_birthdays now book
  = Return (Str (match entries with
                 | [] => "No one has birthday in the next 7 days."
                 | _ => "Birthdays in the next 7 days: " ++ repr (List entries)
                 end))
  /\ List.length entries = List.length shown
  /\ (forall record b, In record shown -> Record.birthday record = Some b ->
        entry_of today record
        = Dict [ (Str "Name", Str (value (Record.name record)));
                 (Str "birthday date",
                  Str (strftime_dmY (next_occurrence today (value b)))) ])
  /\ (forall record, ~ In (value (Record.name record)) (keys book) ->
        values (snd (AddressBook.add_record record book))
        = (values book ++ [record])%list).
Proof.
  intros Hv Hy Hp today shown entries.
  split; [|split; [|split]].
  - apply (upcoming_birthdays_plain now book Hv Hy Hp).
  - apply length_map.
  - intros record b _ Hb. unfold entry_of. now rewrite Hb.
  - intros record. apply values_add_record_new.
Qed.

Lemma C2_query_result_witness :
  AddressBook.get_upcoming_birthdays june_now june_book
  = Return (Str ("Birthdays in the next 7 days: "
                 ++ "[{'Name': 'Ann', 'birthday date': '15.06.2024'}]")).
Proof.
  refine (proj1 (C2_query_result june_now june_book _ _ _)).
  - reflexivity.
  - reflexivity.
  - intros record b [<-|[]] Hb. inversion Hb; subst. split; reflexivity.
Defined.

(* ===================================================================== *)
(** * [strptime] and [Birthday] *)
(* ===================================================================== *)

Lemma chr_code (c : ascii) : chr (code c) = c.
Proof. unfold chr, code. rewrite N2Z.id. apply ascii_N_embedding. Qed.

Lemma code_chr (n : Z) : 0 <= n < 256 -> code (chr n) = n.
Proof.
  intros H. unfold chr, code. rewrite N_ascii_embedding; lia.
Qed.

Lemma between_In (lo hi c : ascii) :
  between lo hi c = true -> In c (char_range lo hi).
Proof.
  unfold between. rewrite andb_true_iff, !Z.leb_le. intros [H1 H2].
  unfold char_range. apply in_map_iff.
  exists (Z.to_nat (code c - code lo)). split.
  - rewrite Z2Nat.id by lia.
    replace (code lo + (code c - code lo)) with (code c) by lia.
    apply chr_code.
  - apply in_seq. lia.
Qed.

Lemma Z_range_In (lo hi n : Z) : lo <= n <= hi -> In n (Z_range lo hi).
Proof.
  intros H. unfold Z_range. apply in_map_iff.
  exists (Z.to_nat (n - lo)). split; [lia | apply in_seq; lia].
Qed.

Lemma one_In p s t r :
  In (t, r) (one p s) -> exists a, s = String a r /\ t = String a "" /\ p a = true.
Proof.
  unfold one. destruct s as [|a s]; [intros []|].
  destruct (p a) eqn:E; [|intros []].
  intros [H|[]]. inversion H; subst. now exists a.
Qed.

Lemma two_In p q s t r :
  In (t, r) (two p q s) ->
  exists a b, s = String a (String b r) /\ t = String a (String b "")
              /\ p a = true /\ q b = true.
Proof.
  unfold two. destruct s as [|a [|b s]]; try (intros []).
  destruct (p a && q b) eqn:E; [|intros []].
  apply andb_true_iff in E. destruct E as [Ea Eb].
  intros [H|[]]. inversion H; subst. now exists a, b.
Qed.

Ltac unpack_match H :=
  first [ apply two_In in H; destruct H as (? & ? & -> & -> & ? & ?)
        | apply one_In in H; destruct H as (? & -> & -> & ?) ].

Ltac enum_chars :=
  repeat match goal with
         | H : char_isdecimal _ = true |- _ =>
             change (char_isdecimal ?c) with (between "0" "9" c) in H
         | H : between _ _ _ = true |- _ =>
             apply between_In in H; vm_compute in H
         | H : _ \/ _ |- _ => destruct H as [H|H]
         | H : False |- _ => destruct H
         | H : @eq ascii _ ?c |- _ => subst c
         end.

Lemma re_d_sound s t r :
  In (t, r) (re_d s) ->
  s = t ++ r /\ 1 <= int_of t <= 31 /\ In t (day_texts (int_of t)).
Proof.
  unfold re_d, alt. rewrite !in_app_iff.
  intros [H|[H|[H|[H|H]]]]; unpack_match H.
  all: enum_chars; (split; [reflexivity | split; [vm_compute; split; discriminate | vm_compute; tauto]]).
Qed.

Lemma re_m_sound s t r :
  In (t, r) (re_m s) ->
  s = t ++ r /\ 1 <= int_of t <= 12 /\ In t (month_texts (int_of t)).
Proof.
  unfold re_m, alt. rewrite !in_app_iff.
  intros [H|[H|H]]; unpack_match H.
  all: enum_chars; (split; [reflexivity | split; [vm_compute; split; discriminate | vm_compute; tauto]]).
Qed.

Lemma re_dot_sound s t r : In (t, r) (re_dot s) -> s = String "." r.
Proof.
  intros H. unpack_match H. enum_chars. reflexivity.
Qed.

Lemma decimal_digit (c : ascii) :
  char_isdecimal c = true ->
  0 <= digit_value c <= 9 /\ c = digit_char (digit_value c)
  /\ Ascii.eqb c " " = false.
Proof.
  intros H. enum_chars; vm_compute; repeat split; discriminate.
Qed.

Lemma digit_char_value (k : Z) : 0 <= k <= 9 -> digit_value (digit_char k) = k.
Proof.
  intros H. unfold digit_value, digit_char. rewrite code_chr; lia.
Qed.

Lemma digit_char_decimal (k : Z) :
  0 <= k <= 9 -> char_isdecimal (digit_char k) = true.
Proof.
  intros H. unfold char_isdecimal, digit_char. cbv zeta.
  rewrite code_chr by lia. apply andb_true_iff. rewrite !Z.leb_le. lia.
Qed.

Lemma digit_char_not_blank (k : Z) :
  0 <= k <= 9 -> Ascii.eqb (digit_char k) " " = false.
Proof.
  intros H. apply (decimal_digit _ (digit_char_decimal k H)).
Qed.

Lemma int_of_pad4 (y : Z) : 0 <= y <= 9999 -> int_of (pad4 y) = y.
Proof.
  intros H. unfold int_of, pad4. simpl.
  assert (H3 : 0 <= y / 1000 <= 9) by (Z.div_mod_to_equations; lia).
  assert (H2 : 0 <= y / 100 mod 10 <= 9) by (Z.div_mod_to_equations; lia).
  assert (H1 : 0 <= y / 10 mod 10 <= 9) by (Z.div_mod_to_equations; lia).
  assert (H0 : 0 <= y mod 10 <= 9) by (Z.div_mod_to_equations; lia).
  rewrite !digit_char_not_blank, !digit_char_value by assumption.
  Z.div_mod_to_equations; lia.
Qed.

Lemma pad4_digits (a b c d : Z) :
  0 <= a <= 9 -> 0 <= b <= 9 -> 0 <= c <= 9 -> 0 <= d <= 9 ->
  pad4 (((a * 10 + b) * 10 + c) * 10 + d)
  = String (digit_char a) (String (digit_char b)
      (String (digit_char c) (String (digit_char d) ""))).
Proof.
  intros Ha Hb Hc Hd. unfold pad4.
  replace ((((a * 10 + b) * 10 + c) * 10 + d) / 1000) with a
    by (Z.div_mod_to_equations; lia).
  replace ((((a * 10 + b) * 10 + c) * 10 + d) / 100 mod 10) with b
    by (Z.div_mod_to_equations; lia).
  replace ((((a * 10 + b) * 10 + c) * 10 + d) / 10 mod 10) with c
    by (Z.div_mod_to_equations; lia).
  replace ((((a * 10 + b) * 10 + c) * 10 + d) mod 10) with d
    by (Z.div_mod_to_equations; lia).
  reflexivity.
Qed.

Lemma re_Y_sound s t r :
  In (t, r) (re_Y s) ->
  s = t ++ r /\ 0 <= int_of t <= 9999 /\ t = pad4 (int_of t).
Proof.
  unfold re_Y. destruct s as [|a [|b [|c [|d s]]]]; try (intros []).
  destruct (char_isdecimal a && char_isdecimal b && char_isdecimal c && char_isdecimal d)
    eqn:E; [|intros []].
  rewrite !andb_true_iff in E. destruct E as [[[Ea Eb] Ec] Ed].
  intros [H|[]]. inversion H; subst. clear H.
  destruct (decimal_digit a Ea) as (Ra & Ca & Ba).
  destruct (decimal_digit b Eb) as (Rb & Cb & Bb).
  destruct (decimal_digit c Ec) as (Rc & Cc & Bc).
  destruct (decimal_digit d Ed) as (Rd & Cd & Bd).
  assert (Ei : int_of (String a (String b (String c (String d ""))))
               = ((digit_value a * 10 + digit_value b) * 10 + digit_value c) * 10
                 + digit_value d).
  { unfold int_of. simpl. now rewrite Ba, Bb, Bc, Bd. }
  split; [reflexivity|]. rewrite Ei. split; [lia|].
  rewrite pad4_digits by assumption. congruence.
Qed.

Lemma append_empty_r (s : string) : s ++ "" = s.
Proof. induction s as [|c s IH]; simpl; [reflexivity | now rewrite IH]. Qed.

Lemma append_assoc (a b c : string) : (a ++ b) ++ c = a ++ (b ++ c).
Proof. induction a as [|x a IH]; simpl; [reflexivity | now rewrite IH]. Qed.

Lemma then_In {B : Type} (r : matcher) (k : string -> string -> list B) s (x : B) :
  In x (then_ r k s) -> exists t rest, In (t, rest) (r s) /\ In x (k t rest).
Proof.
  unfold then_. rewrite in_flat_map. intros [[t rest] [H1 H2]].
  now exists t, rest.
Qed.

Lemma hd_error_In {A : Type} (l : list A) (x : A) : hd_error l = Some x -> In x l.
Proof. destruct l; simpl; [discriminate|]. intros H; inversion H; now left. Qed.

Lemma re_match_dmY_sound s d m Y rest :
  re_match_dmY s = Some (d, m, Y, rest) ->
  s = d ++ "." ++ m ++ "." ++ Y ++ rest
  /\ (1 <= int_of d <= 31 /\ In d (day_texts (int_of d)))
  /\ (1 <= int_of m <= 12 /\ In m (month_texts (int_of m)))
  /\ (0 <= int_of Y <= 9999 /\ Y = pad4 (int_of Y)).
Proof.
  unfold re_match_dmY. intros H. apply hd_error_In in H.
  apply then_In in H. destruct H as (d' & s1 & Hd & H).
  apply then_In in H. destruct H as (p1 & s2 & Hp1 & H).
  apply then_In in H. destruct H as (m' & s3 & Hm & H).
  apply then_In in H. destruct H as (p2 & s4 & Hp2 & H).
  apply then_In in H. destruct H as (Y' & s5 & HY & H).
  destruct H as [H|[]]. inversion H; subst; clear H.
  apply re_d_sound in Hd. destruct Hd as (-> & Hd).
  apply re_dot_sound in Hp1. subst s1.
  apply re_m_sound in Hm. destruct Hm as (-> & Hm).
  apply re_dot_sound in Hp2. subst s3.
  apply re_Y_sound in HY. destruct HY as (-> & HY).
  repeat split; try tauto.
Qed.

(** What [strptime] returns: midnight of a valid date that the text
    spells. *)
Lemma strptime_dmY_sound s t :
  strptime_dmY s = Return t ->
  t = mkdatetime (dt_date t) 0 0 0 0
  /\ valid_date (dt_date t) = true /\ parses_as s (dt_date t).
Proof.
  unfold strptime_dmY.
  destruct (re_match_dmY s) as [[[[d m] Y] rest]|] eqn:E; [|discriminate].
  destruct (String.eqb_spec rest "") as [->|Hrest]; simpl; [|discriminate].
  destruct (date_new (int_of Y) (int_of m) (int_of d)) as [dte|e] eqn:En; simpl;
    [|discriminate].
  intros H; inversion H; subst; clear H. simpl.
  apply date_new_Return in En. destruct En as [-> Hv].
  apply re_match_dmY_sound in E. destruct E as (-> & [_ Hd] & [_ Hm] & [_ HY]).
  split; [reflexivity|]. split; [exact Hv|].
  exists d, m. simpl. rewrite <- HY.
  split; [exact Hd|]. split; [exact Hm|].
  now rewrite append_empty_r.
Qed.

Lemma strptime_dmY_raise s e :
  strptime_dmY s = Raise e -> exc_class e = ValueError.
Proof.
  unfold strptime_dmY, raise_.
  destruct (re_match_dmY s) as [[[[d m] Y] rest]|]; [|intros H; now inversion H].
  destruct (negb (rest =? "")%string); [intros H; now inversion H|].
  destruct (date_new (int_of Y) (int_of m) (int_of d)) eqn:En; simpl; [discriminate|].
  intros H; inversion H; subst. apply (date_new_raise _ _ _ _ En).
Qed.

Ltac enum_values H :=
  apply Z_range_In in H; vm_compute in H;
  repeat (destruct H as [H|H]; [subst|]); [..|destruct H].

Ltac enum_texts H :=
  vm_compute in H;
  repeat (destruct H as [H|H]; [subst|]); [..|destruct H].

Lemma then_re_d_dot (d : Z) (dt : string) :
  1 <= d <= 31 -> In dt (day_texts d) ->
  int_of dt = d
  /\ forall (B : Type) (g : string -> string -> list B) (rest : string),
       then_ re_d (fun t => then_ re_dot (fun _ => g t)) (dt ++ String "." rest)
       = g dt rest.
Proof.
  intros Hd Hdt. enum_values Hd; enum_texts Hdt.
  all: split; [reflexivity|]; intros B g rest;
    unfold then_, re_d, re_dot, alt, two, one; simpl;
    rewrite ?app_nil_r; reflexivity.
Qed.

Lemma then_re_m_dot (m : Z) (mt : string) :
  1 <= m <= 12 -> In mt (month_texts m) ->
  int_of mt = m
  /\ forall (B : Type) (g : string -> string -> list B) (rest : string),
       then_ re_m (fun t => then_ re_dot (fun _ => g t)) (mt ++ String "." rest)
       = g mt rest.
Proof.
  intros Hm Hmt. enum_values Hm; enum_texts Hmt.
  all: split; [reflexivity|]; intros B g rest;
    unfold then_, re_m, re_dot, alt, two, one; simpl;
    rewrite ?app_nil_r; reflexivity.
Qed.

Lemma then_re_Y (y : Z) :
  0 <= y <= 9999 ->
  forall (B : Type) (g : string -> string -> list B) (rest : string),
    then_ re_Y g (pad4 y ++ rest) = g (pad4 y) rest.
Proof.
  intros H B g rest. unfold then_, re_Y, pad4. simpl.
  rewrite !digit_char_decimal by (Z.div_mod_to_equations; lia).
  simpl. apply app_nil_r.
Qed.

Lemma strptime_dmY_complete s dte :
  valid_date dte = true -> parses_as s dte ->
  strptime_dmY s = Return (mkdatetime dte 0 0 0 0).
Proof.
  intros Hv (dt & mt & Hdt & Hmt & ->).
  destruct dte as [y m d]. simpl in *.
  assert (Hb : (1 <= y <= 9999) /\ (1 <= m <= 12) /\ (1 <= d <= 31)).
  { unfold valid_date, MINYEAR, MAXYEAR in Hv. simpl in Hv.
    rewrite !andb_true_iff, !Z.leb_le in Hv.
    assert (days_in_month y m <= 31).
    { unfold days_in_month. destruct ((m =? 2) && is_leap y); [lia|].
      assert (Hm : 1 <= m <= 12) by lia. enum_values Hm; simpl; lia. }
    lia. }
  destruct Hb as (Hy & Hm & Hd).
  destruct (then_re_d_dot d dt Hd Hdt) as [Id Sd].
  destruct (then_re_m_dot m mt Hm Hmt) as [Im Sm].
  unfold strptime_dmY, re_match_dmY.
  rewrite (Sd _ (fun d0 => then_ re_m (fun m0 => then_ re_dot (fun _ =>
                 then_ re_Y (fun Y rest => [(d0, m0, Y, rest)]))))).
  rewrite (Sm _ (fun m0 => then_ re_Y (fun Y rest => [(dt, m0, Y, rest)]))).
  rewrite <- (append_empty_r (pad4 y)) at 1.
  rewrite then_re_Y by lia. simpl.
  rewrite Id, Im, int_of_pad4 by lia.
  now rewrite (date_new_valid _ _ _ Hv).
Qed.

Lemma tuple_compare_midnight (h mi s us : Z) :
  0 <= h -> 0 <= mi -> 0 <= s -> 0 <= us ->
  tuple_compare [0; 0; 0; 0] [h; mi; s; us] <> Gt.
Proof.
  intros Hh Hmi Hs Hus. cbn [tuple_compare].
  destruct (Z.compare_spec 0 h); try discriminate; try lia.
  destruct (Z.compare_spec 0 mi); try discriminate; try lia.
  destruct (Z.compare_spec 0 s); try discriminate; try lia.
  destruct (Z.compare_spec 0 us); try discriminate; try lia.
Qed.

Lemma tuple_compare_3 (a1 a2 a3 b1 b2 b3 : Z) (x y : list Z) :
  tuple_compare (a1 :: a2 :: a3 :: x) (b1 :: b2 :: b3 :: y)
  = match tuple_compare [a1; a2; a3] [b1; b2; b3] with
    | Eq => tuple_compare x y
    | c => c
    end.
Proof.
  cbn [tuple_compare].
  destruct (a1 ?= b1), (a2 ?= b2), (a3 ?= b3); reflexivity.
Qed.

Lemma tuple_compare_3_antisym (a1 a2 a3 b1 b2 b3 : Z) :
  tuple_compare [b1; b2; b3] [a1; a2; a3]
  = CompOpp (tuple_compare [a1; a2; a3] [b1; b2; b3]).
Proof.
  cbn [tuple_compare].
  rewrite (Z.compare_antisym a1 b1), (Z.compare_antisym a2 b2),
    (Z.compare_antisym a3 b3).
  destruct (a1 ?= b1), (a2 ?= b2), (a3 ?= b3); reflexivity.
Qed.

(** Midnight of a date is later than the clock exactly when the date is
    later than the clock's date. *)
Lemma datetime_gtb_midnight (now : datetime) (dte : date) :
  valid_datetime now = true ->
  datetime_gtb (mkdatetime dte 0 0 0 0) now = date_ltb (dt_date now) dte.
Proof.
  intros Hv. unfold valid_datetime in Hv.
  rewrite !andb_true_iff, !Z.leb_le in Hv.
  assert (Hm : tuple_compare [0; 0; 0; 0]
                 [hour now; minute now; second now; microsecond now] <> Gt).
  { apply tuple_compare_midnight; lia. }
  unfold datetime_gtb, date_ltb, datetime_tuple, date_tuple.
  cbn [dt_date hour minute second microsecond app].
  rewrite tuple_compare_3.
  rewrite (tuple_compare_3_antisym (year dte) (month dte) (day dte)).
  destruct (tuple_compare [year dte; month dte; day dte]
              [year (dt_date now); month (dt_date now); day (dt_date now)]);
    cbn [CompOpp]; try reflexivity.
  destruct (tuple_compare [0; 0; 0; 0]
              [hour now; minute now; second now; microsecond now]);
    try reflexivity; contradiction.
Qed.

Lemma Birthday_init_eq (now : datetime) (s : string) :
  valid_datetime now = true ->
  Birthday.__init__ now s =
    match strptime_dmY s with
    | Return t =>
        if date_ltb (dt_date now) (dt_date t)
        then raise_ ValueError "Birthday can't be in future"
        else Return (mkField (dt_date t))
    | Raise _ => raise_ ValueError "Invalid date format. Use DD.MM.YYYY"
    end.
Proof.
  intros Hv. unfold Birthday.__init__, try_except_ValueError.
  destruct (strptime_dmY s) as [t|e] eqn:E.
  - simpl. destruct (strptime_dmY_sound _ _ E) as (Ht & _ & _).
    rewrite Ht at 1. now rewrite (datetime_gtb_midnight now _ Hv).
  - now rewrite (strptime_dmY_raise _ _ E).
Qed.

Lemma strftime_parses_as (dte : date) : parses_as (strftime_dmY dte) dte.
Proof.
  exists (pad2 (day dte)), (pad2 (month dte)). unfold day_texts, month_texts.
  split; [destruct (day dte <? 10); now left|].
  split; [destruct (month dte <? 10); now left|].
  reflexivity.
Qed.

Lemma length_strftime_dmY (dte : date) : String.length (strftime_dmY dte) = 10%nat.
Proof. reflexivity. Qed.

(** C6, as stated, fails: [Birthday("1.6.1990")] succeeds although the text
    is not of the form DD.MM.YYYY (its day and month have one digit). *)
Lemma C6_Birthday_counterexample :
  ~ ((exists b, Birthday.__init__ leap_now "1.6.1990" = Return b)
     <-> (exists dte, valid_date dte = true
                      /\ "1.6.1990" = strftime_dmY dte
                      /\ date_ltb (dt_date leap_now) dte = false)).
Proof.
  intros [H _].
  destruct H as (dte & _ & E & _).
  - exists (mkField (mkdate 1990 6 1)). reflexivity.
  - apply (f_equal String.length) in E.
    rewrite length_strftime_dmY in E. discriminate E.
Qed.

(** C6 (amended): with a valid clock, [Birthday(s)] succeeds with the date
    [dte] stored exactly when [dte] is a valid calendar date (year 1 to
    9999), [s] spells it as [strptime] reads ["%d.%m.%Y"] -- day, ".",
    month, ".", four-digit year and nothing else, where day and month have
    two digits or, below 10, one digit (for the day also a blank and one
    digit) -- and [dte] is not strictly after the clock's date.  Every
    other text is refused with a [ValueError].  In particular every
    DD.MM.YYYY text of a valid date not after today is accepted and the
    stored value is that date. *)
Theorem C6_Birthday_validation (now : datetime) (s : string) :
  valid_datetime now = true ->
  (forall dte,
     Birthday.__init__ now s = Return (mkField dte)
     <-> (valid_date dte = true /\ parses_as s dte
          /\ date_ltb (dt_date now) dte = false))
  /\ (forall e, Birthday.__init__ now s = Raise e -> exc_class e = ValueError)
  /\ (forall dte,
        valid_date dte = true -> date_ltb (dt_date now) dte = false ->
        Birthday.__init__ now (strftime_dmY dte) = Return (mkField dte)).
Proof.
  intros Hv.
  assert (Hback : forall s' dte,
            valid_date dte = true -> parses_as s' dte ->
            date_ltb (dt_date now) dte = false ->
            Birthday.__init__ now s' = Return (mkField dte)).
  { intros s' dte Hd Hp Hl. rewrite (Birthday_init_eq now s' Hv).
    rewrite (strptime_dmY_complete _ _ Hd Hp). simpl. now rewrite Hl. }
  split; [|split].
  - intros dte. split.
    + rewrite (Birthday_init_eq now s Hv).
      destruct (strptime_dmY s) as [t|e] eqn:E; [|discriminate].
      destruct (strptime_dmY_sound _ _ E) as (_ & Hd & Hp).
      destruct (date_ltb (dt_date now) (dt_date t)) eqn:El; [discriminate|].
      intros H. inversion H; subst. auto.
    + intros (Hd & Hp & Hl). now apply Hback.
  - intros e. rewrite (Birthday_init_eq now s Hv).
    destruct (strptime_dmY s) as [t|e'].
    + destruct (date_ltb (dt_date now) (dt_date t)); [|discriminate].
      intros H; now inversion H.
    + intros H; now inversion H.
  - intros dte Hd Hl. apply Hback; auto. apply strftime_parses_as.
Qed.

Lemma C6_Birthday_validation_witness :
  Birthday.__init__ leap_now "03.11.2026" = Return (mkField (mkdate 2026 11 3))
  /\ exc_class (Exception ValueError "Birthday can't be in future") = ValueError
  /\ Birthday.__init__ leap_now (strftime_dmY (mkdate 1990 6 15))
     = Return (mkField (mkdate 1990 6 15)).
Proof.
  assert (Hv : valid_datetime leap_now = true) by reflexivity.
  split; [|split].
  - apply (proj1 (C6_Birthday_validation leap_now "03.11.2026" Hv)).
    split; [reflexivity|]. split; [|reflexivity].
    exists "03", "11". simpl. auto.
  - apply (proj1 (proj2 (C6_Birthday_validation leap_now "04.11.2026" Hv))).
    reflexivity.
  - apply (proj2 (proj2 (C6_Birthday_validation leap_now "" Hv)));
      reflexivity.
Defined.

(* ===================================================================== *)
(** * [Record]: further properties of the phone operations *)
(* ===================================================================== *)

Lemma Phone_init_cases (number : string) :
  (raises (Phone.__init__ number) = false
   /\ Phone.__init__ number = Return (mkField number)
   /\ phone_valid (mkField number) = true)
  \/ (raises (Phone.__init__ number) = true
      /\ Phone.__init__ number
         = Raise (Exception ValueError "Phone number should contain 10 digits")).
Proof.
  unfold Phone.__init__, phone_valid, raise_. simpl.
  destruct (isdigit number); simpl; [|right; auto].
  destruct (len number =? 10); simpl; [left | right]; auto.
Qed.

Lemma add_phone_ok number self :
  raises (Phone.__init__ number) = false ->
  Record.add_phone number self
  = (Return tt, Record.set_phones (Record.phones self ++ [mkField number]) self).
Proof.
  intros H. destruct (Phone_init_cases number) as [(_ & E & _)|(E & _)];
    [|congruence].
  unfold Record.add_phone, bindM, lift, modify. now rewrite E.
Qed.

Lemma add_phone_fail number self :
  raises (Phone.__init__ number) = true ->
  Record.add_phone number self
  = (Raise (Exception ValueError "Phone number should contain 10 digits"), self).
Proof.
  intros H. destruct (Phone_init_cases number) as [(E & _)|(_ & E)];
    [congruence|].
  unfold Record.add_phone, bindM, lift, modify. now rewrite E.
Qed.

Lemma find_phone_in_first number ps p :
  Record.find_phone_in number ps = Some p ->
  value p = number
  /\ exists before after,
       ps = (before ++ p :: after)%list /\ ~ In number (map value before).
Proof.
  induction ps as [|q ps IH]; simpl; [discriminate|].
  destruct (String.eqb_spec number (value q)) as [E|E].
  - intros H; inversion H; subst. split; [reflexivity|].
    exists [], ps. split; [reflexivity | intros []].
  - intros H. destruct (IH H) as (Hv & before & after & -> & Hb).
    split; [exact Hv|]. exists (q :: before), after.
    split; [reflexivity|]. simpl. intros [H1|H1]; [now symmetry in H1 | contradiction].
Qed.

Lemma find_phone_in_app number ps qs :
  Record.find_phone_in number (ps ++ qs)
  = match Record.find_phone_in number ps with
    | Some p => Some p
    | None => Record.find_phone_in number qs
    end.
Proof.
  induction ps as [|p ps IH]; simpl; [reflexivity|].
  destruct (number =? value p)%string; [reflexivity | exact IH].
Qed.

(** X1: [add_phone(number)] either appends one phone holding [number] at
    the end of the sequence, keeping what was stored (duplicates included),
    after which [find_phone(number)] finds a phone with that value; or,
    when [Phone] rejects [number], raises [ValueError] and leaves the
    record exactly as it was. *)
Theorem X1_add_phone (self : Record.t) (number : string) :
  (raises (Phone.__init__ number) = false ->
     Record.add_phone number self
     = (Return tt, Record.set_phones (Record.phones self ++ [mkField number]) self)
     /\ exists p, Record.find_phone number (snd (Record.add_phone number self)) = Some p
                  /\ value p = number)
  /\ (raises (Phone.__init__ number) = true ->
        exists msg,
          Record.add_phone number self = (Raise (Exception ValueError msg), self)).
Proof.
  split.
  - intros H. rewrite (add_phone_ok _ _ H). split; [reflexivity|].
    simpl. unfold Record.find_phone. simpl. rewrite find_phone_in_app.
    destruct (Record.find_phone_in number (Record.phones self)) as [p|] eqn:E.
    + exists p. split; [reflexivity|]. apply (find_phone_in_first _ _ _ E).
    + exists (mkField number). simpl. now rewrite String.eqb_refl.
  - intros H. rewrite (add_phone_fail _ _ H). eexists; reflexivity.
Qed.

Lemma X1_add_phone_witness :
  Record.add_phone "2222222222" al_one_phone = (Return tt, al_two_phones)
  /\ (exists msg, Record.add_phone "22-22" al_one_phone
        = (Raise (Exception ValueError msg), al_one_phone)).
Proof.
  split.
  - apply (proj1 (X1_add_phone al_one_phone "2222222222")). reflexivity.
  - apply (proj2 (X1_add_phone al_one_phone "22-22")). reflexivity.
Defined.

(** X2: [find_phone(number)] returns nothing exactly when no stored phone
    has the value [number]; what it returns otherwise is the first stored
    phone with that value. *)
Theorem X2_find_phone (self : Record.t) (number : string) :
  (Record.find_phone number self = None
     <-> ~ In number (map value (Record.phones self)))
  /\ (forall p, Record.find_phone number self = Some p ->
        value p = number
        /\ exists before after,
             Record.phones self = (before ++ p :: after)%list
             /\ ~ In number (map value before)).
Proof.
  split.
  - apply find_phone_in_none.
  - intros p. apply find_phone_in_first.
Qed.

Lemma X2_find_phone_witness :
  value (mkField (V := string) "2222222222") = "2222222222"
  /\ exists before after,
       Record.phones al_two_phones = (before ++ mkField "2222222222" :: after)%list
       /\ ~ In "2222222222" (map value before).
Proof.
  apply (proj2 (X2_find_phone al_two_phones "2222222222")). reflexivity.
Defined.

Lemma filter_keeps_app number (ps qs : list Phone.t) :
  filter (keeps number) (ps ++ qs)
  = (filter (keeps number) ps ++ filter (keeps number) qs)%list.
Proof. apply filter_app. Qed.

(** X3: deleting a number right after adding it undoes the addition, and
    takes the earlier copies of the number with it: the record is as after
    [delete_phone(number)] alone, and is the record before the addition
    when the number was not stored. *)
Theorem X3_add_then_delete_phone (self : Record.t) (number : string) :
  raises (Phone.__init__ number) = false ->
  snd (Record.delete_phone number (snd (Record.add_phone number self)))
  = snd (Record.delete_phone number self)
  /\ (~ In number (map value (Record.phones self)) ->
        snd (Record.delete_phone number (snd (Record.add_phone number self))) = self).
Proof.
  intros H. rewrite (add_phone_ok _ _ H). rewrite !delete_phone_eq. simpl.
  assert (E : filter (keeps number) (Record.phones self ++ [mkField number])
              = filter (keeps number) (Record.phones self)).
  { rewrite filter_keeps_app. simpl. unfold keeps at 2. simpl.
    rewrite String.eqb_refl. simpl. apply app_nil_r. }
  rewrite E. split.
  - destruct self; reflexivity.
  - intros Hn. rewrite (filter_keeps_all _ _ Hn). destruct self; reflexivity.
Qed.

Lemma X3_add_then_delete_phone_witness :
  snd (Record.delete_phone "2222222222"
         (snd (Record.add_phone "2222222222" al_one_phone))) = al_one_phone.
Proof.
  refine (proj2 (X3_add_then_delete_phone al_one_phone "2222222222" _) _).
  - reflexivity.
  - simpl. intros [H|[]]; discriminate H.
Defined.

Lemma length_filter_keeps number (ps : list Phone.t) :
  (List.length (filter (keeps number) ps)
   + count_occ string_dec (map value ps) number)%nat = List.length ps.
Proof.
  induction ps as [|p ps IH]; simpl; [reflexivity|].
  unfold keeps at 1.
  destruct (String.eqb_spec (value p) number) as [E|E]; simpl.
  - destruct (string_dec (value p) number); [lia | contradiction].
  - destruct (string_dec (value p) number); [contradiction | lia].
Qed.

Lemma edit_phone_ok self old_number new_number :
  In old_number (map value (Record.phones self)) ->
  raises (Phone.__init__ new_number) = false ->
  Record.edit_phone old_number new_number self
  = (Return tt,
     Record.set_phones
       (filter (keeps old_number) (Record.phones self) ++ [mkField new_number]) self).
Proof.
  intros Hin Hnew. unfold Record.edit_phone, Record.find_phone.
  destruct (find_phone_in_some _ _ Hin) as [q ->].
  destruct (Phone_init_cases new_number) as [(_ & E & _)|(E & _)]; [|congruence].
  unfold bindM, lift, modify, try_except_ValueError. rewrite E. reflexivity.
Qed.

(** X4: after a successful [edit_phone(old_number, new_number)] the new
    number is found, the old one is not (unless the two are the same
    number), the new phone is the last of the sequence, and the sequence
    is shorter by the number of stored copies of the old number, less
    one. *)
Theorem X4_edit_phone_effects (self : Record.t) (old_number new_number : string) :
  In old_number (map value (Record.phones self)) ->
  raises (Phone.__init__ new_number) = false ->
  let self' := snd (Record.edit_phone old_number new_number self) in
  (exists p, Record.find_phone new_number self' = Some p /\ value p = new_number)
  /\ (old_number <> new_number -> Record.find_phone old_number self' = None)
  /\ last (Record.phones self') (mkField "") = mkField new_number
  /\ (List.length (Record.phones self')
      + count_occ string_dec (map value (Record.phones self)) old_number)%nat
     = S (List.length (Record.phones self)).
Proof.
  intros Hin Hnew self'. subst self'.
  rewrite (edit_phone_ok _ _ _ Hin Hnew). simpl.
  unfold Record.find_phone. simpl.
  split; [|split; [|split]].
  - rewrite find_phone_in_app.
    destruct (Record.find_phone_in new_number
                (filter (keeps old_number) (Record.phones self))) as [p|] eqn:F.
    + exists p. split; [reflexivity|]. apply (find_phone_in_first _ _ _ F).
    + exists (mkField new_number). simpl. now rewrite String.eqb_refl.
  - intros Hne. rewrite find_phone_in_app.
    rewrite (proj2 (find_phone_in_none old_number _) (filter_keeps_none _ _)).
    simpl. destruct (String.eqb_spec old_number new_number); [contradiction | reflexivity].
  - apply last_last.
  - rewrite length_app. simpl.
    pose proof (length_filter_keeps old_number (Record.phones self)). lia.
Qed.

Lemma X4_edit_phone_effects_witness :
  Record.find_phone "1111111111"
    (snd (Record.edit_phone "1111111111" "2222222222" al_three_phones)) = None.
Proof.
  refine (proj1 (proj2 (X4_edit_phone_effects al_three_phones
                          "1111111111" "2222222222" _ _)) _).
  - simpl. now left.
  - reflexivity.
  - discriminate.
Defined.

(* ===================================================================== *)
(** * [Record]: what every record satisfies *)
(* ===================================================================== *)

Lemma Birthday_init_valid now text b :
  Birthday.__init__ now text = Return b -> valid_date (value b) = true.
Proof.
  unfold Birthday.__init__, try_except_ValueError.
  destruct (strptime_dmY text) as [t|e] eqn:E.
  - simpl. destruct (datetime_gtb t now); [discriminate|].
    intros H; inversion H; subst. simpl.
    apply (strptime_dmY_sound _ _ E).
  - destruct (exc_class e); simpl; discriminate.
Qed.

Lemma Record_init_cases name :
  (2 <= len name /\ Record.__init__ name = Return (Record.mk (mkField name) [] None))
  \/ (len name < 2
      /\ Record.__init__ name
         = Raise (Exception ValueError
                    "Name is required and must contain more than 2 symbols")).
Proof.
  unfold Record.__init__.
  destruct (Z_lt_le_dec (len name) 2) as [H|H].
  - right. split; [exact H|]. now rewrite (Name_init_short _ H).
  - left. split; [exact H|]. now rewrite (Name_init_long _ H).
Qed.

Lemma record_ok_set_phones ps self :
  record_ok self = true -> forallb phone_valid ps = true ->
  record_ok (Record.set_phones ps self) = true.
Proof.
  unfold record_ok. simpl. rewrite !andb_true_iff.
  intros [[H1 _] H3] H2. auto.
Qed.

Lemma record_ok_phones self :
  record_ok self = true -> forallb phone_valid (Record.phones self) = true.
Proof. unfold record_ok. rewrite !andb_true_iff. tauto. Qed.

Lemma forallb_filter {A : Type} (f g : A -> bool) (l : list A) :
  forallb f l = true -> forallb f (filter g l) = true.
Proof.
  rewrite !forallb_forall. intros H x Hx. apply filter_In in Hx. now apply H.
Qed.

Lemma record_ok_add_phone number self :
  record_ok self = true -> record_ok (snd (Record.add_phone number self)) = true.
Proof.
  intros H. destruct (Phone_init_cases number) as [(R & _ & V)|(R & _)].
  - rewrite (add_phone_ok _ _ R). simpl. apply record_ok_set_phones; [exact H|].
    rewrite forallb_app, (record_ok_phones _ H). simpl. now rewrite V.
  - now rewrite (add_phone_fail _ _ R).
Qed.

Lemma record_ok_delete_phone number self :
  record_ok self = true -> record_ok (snd (Record.delete_phone number self)) = true.
Proof.
  intros H. rewrite delete_phone_eq. simpl.
  apply record_ok_set_phones; [exact H|]. apply forallb_filter, (record_ok_phones _ H).
Qed.

Lemma edit_phone_unchanged_on_raise old_number new_number self e :
  fst (Record.edit_phone old_number new_number self) = Raise e ->
  snd (Record.edit_phone old_number new_number self) = self.
Proof.
  unfold Record.edit_phone, Record.find_phone.
  destruct (Record.find_phone_in old_number (Record.phones self)); [|reflexivity].
  destruct (Phone_init_cases new_number) as [(_ & E & _)|(_ & E)];
    unfold bindM, lift, modify, try_except_ValueError; rewrite E; simpl;
    [discriminate | reflexivity].
Qed.

Lemma record_ok_edit_phone old_number new_number self :
  record_ok self = true ->
  record_ok (snd (Record.edit_phone old_number new_number self)) = true.
Proof.
  intros H.
  destruct (fst (Record.edit_phone old_number new_number self)) as [[]|e] eqn:E.
  - destruct (in_dec string_dec old_number (map value (Record.phones self))) as [I|I].
    + destruct (Phone_init_cases new_number) as [(R & _ & V)|(R & _)].
      * rewrite (edit_phone_ok _ _ _ I R). simpl.
        apply record_ok_set_phones; [exact H|].
        rewrite forallb_app, (forallb_filter _ _ _ (record_ok_phones _ H)).
        simpl. now rewrite V.
      * exfalso. revert E. unfold Record.edit_phone, Record.find_phone.
        destruct (find_phone_in_some _ _ I) as [q ->].
        destruct (Phone_init_cases new_number) as [(R' & _)|(_ & E')]; [congruence|].
        unfold bindM, lift, try_except_ValueError. rewrite E'. simpl. discriminate.
    + exfalso. revert E. unfold Record.edit_phone, Record.find_phone.
      rewrite (proj2 (find_phone_in_none _ _) I). simpl. discriminate.
  - now rewrite (edit_phone_unchanged_on_raise _ _ _ _ E).
Qed.

Lemma add_birthday_cases now text self :
  (exists b, Birthday.__init__ now text = Return b
             /\ Record.add_birthday now text self
                = (Return tt, Record.set_birthday (Some b) self))
  \/ (exists e, Birthday.__init__ now text = Raise e
                /\ Record.add_birthday now text self = (Raise e, self)).
Proof.
  unfold Record.add_birthday, bindM, lift, modify.
  destruct (Birthday.__init__ now text) as [b|e]; [left; exists b | right; exists e];
    auto.
Qed.

Lemma record_ok_add_birthday now text self :
  record_ok self = true -> record_ok (snd (Record.add_birthday now text self)) = true.
Proof.
  intros H. destruct (add_birthday_cases now text self) as [(b & Hb & ->)|(e & _ & ->)];
    [|exact H].
  simpl. unfold record_ok in *. simpl. rewrite !andb_true_iff in *.
  destruct H as [[H1 H2] _]. repeat split; auto.
  apply (Birthday_init_valid _ _ _ Hb).
Qed.

(** X5: a record made by [Record(name)] has the given name, of at least two
    characters, no phones and no birthday; and whatever sequence of
    [add_phone], [delete_phone], [edit_phone] and [add_birthday] calls
    follows, failed ones included, every stored phone is a text that
    [Phone] accepts, the name keeps its length of at least two, and a
    stored birthday is a valid calendar date. *)
Theorem X5_record_invariant :
  (forall name r, Record.__init__ name = Return r ->
     r = Record.mk (mkField name) [] None /\ record_ok r = true)
  /\ (forall self now a b, record_ok self = true ->
        record_ok (snd (Record.add_phone a self)) = true
        /\ record_ok (snd (Record.delete_phone a self)) = true
        /\ record_ok (snd (Record.edit_phone a b self)) = true
        /\ record_ok (snd (Record.add_birthday now a self)) = true).
Proof.
  split.
  - intros name r H. destruct (Record_init_cases name) as [[Hl E]|[_ E]];
      rewrite E in H; [|discriminate].
    inversion H; subst. split; [reflexivity|].
    unfold record_ok. simpl. rewrite !andb_true_r. now apply Z.leb_le.
  - intros self now a b H.
    auto using record_ok_add_phone, record_ok_delete_phone, record_ok_edit_phone,
      record_ok_add_birthday.
Qed.

Lemma X5_record_invariant_witness :
  record_ok (Record.mk (mkField "Al") [] None) = true
  /\ record_ok (snd (Record.add_phone "1111111111" (Record.mk (mkField "Al") [] None)))
     = true.
Proof.
  split.
  - apply (proj1 X5_record_invariant "Al"). reflexivity.
  - apply (proj2 X5_record_invariant (Record.mk (mkField "Al") [] None) leap_now
             "1111111111" ""). reflexivity.
Defined.

(* ===================================================================== *)
(** * [AddressBook]: further properties of add_record, find, delete *)
(* ===================================================================== *)

Lemma dict_get_In {V : Type} (k : string) (v : V) (d : dict V) :
  dict_get k d = Some v -> In (k, v) d.
Proof.
  induction d as [|[k' v'] d IH]; simpl; [discriminate|].
  destruct (String.eqb_spec k' k) as [E|E].
  - intros H; inversion H; subst. now left.
  - intros H. right. now apply IH.
Qed.

Lemma In_dict_get {V : Type} (k : string) (v : V) (d : dict V) :
  dict_wf d -> In (k, v) d -> dict_get k d = Some v.
Proof.
  unfold dict_wf. induction d as [|[k' v'] d IH]; simpl; [intros _ []|].
  intros Hwf Hin. inversion Hwf as [|? ? Hnotin Hwf']; subst.
  destruct (String.eqb_spec k' k) as [E|E].
  - subst. destruct Hin as [H|H]; [now inversion H|].
    exfalso. apply Hnotin. apply in_map_iff. now exists (k, v).
  - destruct Hin as [H|H]; [inversion H; contradiction | now apply IH].
Qed.

(** X6: [find(name)] never raises; it returns nothing exactly when [name]
    is not a key, and otherwise the record stored under [name]: in a
    directory whose keys are pairwise different, [find(name)] returns
    [record] exactly when the directory holds [record] under [name]. *)
Theorem X6_find (book : AddressBook.t) (name : string) :
  (AddressBook.find name book = None <-> ~ In name (keys book))
  /\ (forall record, AddressBook.find name book = Some record ->
        In (name, record) (AddressBook.data book))
  /\ (book_wf book ->
      forall record, In (name, record) (AddressBook.data book) ->
        AddressBook.find name book = Some record).
Proof.
  unfold AddressBook.find, keys, book_wf.
  split; [apply dict_get_None|].
  split; [intros record; apply dict_get_In|].
  intros Hwf record. now apply In_dict_get.
Qed.

Lemma X6_find_witness :
  AddressBook.find "Bob" bob_book = Some (Record.mk (mkField "Bob") [] None).
Proof.
  apply (proj2 (proj2 (X6_find bob_book "Bob"))).
  - unfold book_wf, dict_wf. simpl. constructor; [intros [] | constructor].
  - simpl. now left.
Defined.

Lemma dict_setitem_new {V : Type} (k : string) (v : V) (d : dict V) :
  ~ In k (dict_keys d) -> dict_setitem k v d = (d ++ [(k, v)])%list.
Proof.
  induction d as [|[k' v'] d IH]; simpl; intros H; [reflexivity|].
  destruct (String.eqb_spec k' k) as [E|E].
  - exfalso; apply H; now left.
  - f_equal. apply IH. tauto.
Qed.

(** X7: adding a record under a name that is not yet a key and then
    deleting that name gives back the directory as it was, entries and
    order. *)
Theorem X7_add_record_then_delete (book : AddressBook.t) (record : Record.t) :
  ~ In (value (Record.name record)) (keys book) ->
  AddressBook.delete (value (Record.name record))
    (snd (AddressBook.add_record record book))
  = (Return tt, book).
Proof.
  intros H. rewrite add_record_eq. simpl.
  rewrite delete_present.
  - simpl. unfold keys in H. rewrite (dict_setitem_new _ _ _ H).
    rewrite filter_app. simpl. unfold other_key at 2. simpl.
    rewrite String.eqb_refl. simpl. rewrite app_nil_r.
    rewrite (filter_other_key_absent _ _ H). now destruct book.
  - unfold keys. simpl. apply dict_setitem_In.
Qed.

Lemma X7_add_record_then_delete_witness :
  AddressBook.delete "Ann" (snd (AddressBook.add_record ann_first bob_book))
  = (Return tt, bob_book).
Proof.
  apply (X7_add_record_then_delete bob_book ann_first).
  simpl. intros [H|[]]; discriminate H.
Defined.

Lemma keys_named_setitem record book :
  keys_named book = true ->
  keys_named
    (AddressBook.mk
       (dict_setitem (value (Record.name record)) record (AddressBook.data book)))
  = true.
Proof.
  unfold keys_named. simpl.
  remember (value (Record.name record)) as k eqn:Hk.
  induction (AddressBook.data book) as [|[k' v'] d IH]; simpl.
  - intros _. rewrite Hk, String.eqb_refl. reflexivity.
  - rewrite andb_true_iff. intros [H1 H2].
    destruct (String.eqb_spec k' k) as [E|E]; simpl.
    + subst k'. rewrite Hk at 1. rewrite String.eqb_refl. exact H2.
    + rewrite H1. simpl. now apply IH.
Qed.

(** X8: the empty directory has pairwise different keys and stores every
    record under its own name, and [add_record] and [delete], whether they
    return or raise, keep both facts. *)
Theorem X8_directory_invariant :
  (book_wf AddressBook.empty /\ keys_named AddressBook.empty = true)
  /\ (forall book record name,
        book_wf book -> keys_named book = true ->
        (book_wf (snd (AddressBook.add_record record book))
         /\ keys_named (snd (AddressBook.add_record record book)) = true)
        /\ (book_wf (snd (AddressBook.delete name book))
            /\ keys_named (snd (AddressBook.delete name book)) = true)).
Proof.
  split; [split; [apply book_wf_empty | reflexivity]|].
  intros book record name Hwf Hn. split.
  - split; [now apply book_wf_add_record|].
    rewrite add_record_eq. simpl. now apply keys_named_setitem.
  - destruct (in_dec string_dec name (keys book)) as [I|I].
    + rewrite (delete_present _ _ I). simpl. split.
      * now apply dict_wf_filter.
      * unfold keys_named in *. simpl. now apply forallb_filter.
    + rewrite (delete_absent _ _ I). simpl. auto.
Qed.

Lemma X8_directory_invariant_witness :
  book_wf (snd (AddressBook.add_record ann_first AddressBook.empty))
  /\ keys_named (snd (AddressBook.add_record ann_first AddressBook.empty)) = true.
Proof.
  apply (proj2 X8_directory_invariant AddressBook.empty ann_first "").
  - unfold book_wf, dict_wf. simpl. constructor.
  - reflexivity.
Defined.

(* ===================================================================== *)
(** * The query: when it raises, and how far a birthday can be *)
(* ===================================================================== *)

Lemma is_leap_succ (y : Z) : is_leap y = true -> is_leap (y + 1) = false.
Proof.
  unfold is_leap. rewrite andb_true_iff. intros [H _].
  apply Z.eqb_eq in H.
  replace ((y + 1) mod 4 =? 0) with false; [reflexivity|].
  symmetry. apply Z.eqb_neq. Z.div_mod_to_equations. lia.
Qed.

Lemma valid_date_year (d : date) :
  valid_date d = true -> MINYEAR <= year d <= MAXYEAR.
Proof.
  unfold valid_date. rewrite !andb_true_iff, !Z.leb_le. lia.
Qed.

Lemma loop_body_raises today days record acc :
  valid_date today = true -> year today < MAXYEAR ->
  (forall b, Record.birthday record = Some b -> valid_date (value b) = true) ->
  raises (AddressBook.loop_body today days record acc) = record_breaks today record.
Proof.
  intros Hv Hy Hb. unfold record_breaks, breaks_query.
  destruct (Record.birthday record) as [b|] eqn:Eb;
    [|unfold AddressBook.loop_body; now rewrite Eb].
  specialize (Hb b eq_refl).
  destruct (is_leap_day (value b)) eqn:El; simpl.
  - unfold is_leap_day in El. apply andb_true_iff in El.
    destruct El as [Em Ed]. apply Z.eqb_eq in Em, Ed.
    destruct (is_leap (year today)) eqn:Ely; simpl.
    + unfold AddressBook.loop_body. rewrite Eb. cbv zeta.
      assert (E1 : replace_year (value b) (year today) = Return (mkdate (year today) 2 29)).
      { unfold replace_year. rewrite Em, Ed. apply date_new_valid.
        pose proof (valid_date_year _ Hv) as Hty.
        unfold valid_date, days_in_month. simpl. rewrite Ely. simpl.
        rewrite !andb_true_iff, !Z.leb_le. lia. }
      rewrite E1. simpl.
      destruct (date_ltb (mkdate (year today) 2 29) today).
      * destruct (replace_year_leap_day (mkdate (year today) 2 29) (year today + 1)
                    eq_refl eq_refl (is_leap_succ _ Ely)) as [msg ->].
        reflexivity.
      * simpl. destruct (_ && _); reflexivity.
    + destruct (loop_body_leap_day today days record b acc Eb Em Ed Ely) as [msg ->].
      reflexivity.
  - rewrite (loop_body_plain today days record acc Hv Hy).
    + reflexivity.
    + intros b' Hb'. rewrite Eb in Hb'. inversion Hb'; subst. auto.
Qed.

Lemma for_each_raises today days records :
  valid_date today = true -> year today < MAXYEAR ->
  valid_birthdays records ->
  forall acc,
    raises (for_each (AddressBook.loop_body today days) records acc)
    = existsb (record_breaks today) records.
Proof.
  intros Hv Hy. induction records as [|r records IH]; intros Hb acc; simpl.
  - reflexivity.
  - assert (Hr : forall b, Record.birthday r = Some b -> valid_date (value b) = true).
    { intros b E. apply (Hb r b); [now left | exact E]. }
    pose proof (loop_body_raises today days r acc Hv Hy Hr) as E.
    destruct (AddressBook.loop_body today days r acc) as [acc'|e]; simpl in E.
    + rewrite <- E. simpl. apply IH.
      intros r' b Hin. apply Hb. now right.
    + now rewrite <- E.
Qed.

(** X9: with a valid clock before year 9999 and stored birthdays that are
    valid dates, [get_upcoming_birthdays] raises exactly when the directory
    holds a record born on 29 February and either today's year is not a
    leap year or today is after 29 February; in every other case it
    returns its text. *)
Theorem X9_query_raises_iff (now : datetime) (book : AddressBook.t) :
  valid_date (dt_date now) = true -> year (dt_date now) < MAXYEAR ->
  valid_birthdays (values book) ->
  (raises (AddressBook.get_upcoming_birthdays now book) = true
   <-> exists record b,
         In record (values book) /\ Record.birthday record = Some b
         /\ month (value b) = 2 /\ day (value b) = 29
         /\ (is_leap (year (dt_date now)) = false
             \/ date_ltb (mkdate (year (dt_date now)) 2 29) (dt_date now) = true))
  /\ (raises (AddressBook.get_upcoming_birthdays now book) = false ->
      exists text, AddressBook.get_upcoming_birthdays now book = Return (Str text)).
Proof.
  intros Hv Hy Hb.
  assert (E : raises (AddressBook.get_upcoming_birthdays now book)
              = existsb (record_breaks (dt_date now)) (values book)).
  { unfold AddressBook.get_upcoming_birthdays. fold (values book).
    rewrite <- (for_each_raises (dt_date now) 7 (values book) Hv Hy Hb []).
    destruct (for_each _ _ _); reflexivity. }
  split.
  - rewrite E, existsb_exists. unfold record_breaks, breaks_query, is_leap_day.
    split.
    + intros [record [Hin Hr]]. destruct (Record.birthday record) as [b|] eqn:Eb;
        [|discriminate].
      exists record, b. rewrite !andb_true_iff, orb_true_iff, negb_true_iff in Hr.
      rewrite !Z.eqb_eq in Hr. tauto.
    + intros (record & b & Hin & Eb & Hm & Hd & Hc). exists record.
      split; [exact Hin|]. rewrite Eb, Hm, Hd. simpl.
      destruct Hc as [-> | ->]; [reflexivity | apply orb_true_r].
  - unfold AddressBook.get_upcoming_birthdays.
    destruct (for_each _ _ _); simpl; [|discriminate].
    intros _. eexists. reflexivity.
Qed.

Lemma X9_query_raises_iff_witness :
  raises (AddressBook.get_upcoming_birthdays leap_now leap_book) = true
  /\ (exists text,
        AddressBook.get_upcoming_birthdays june_now june_book = Return (Str text)).
Proof.
  split.
  - refine (proj2 (proj1 (X9_query_raises_iff leap_now leap_book _ _ _)) _).
    + reflexivity.
    + reflexivity.
    + intros record b [<-|[<-|[]]] Hb; inversion Hb; subst; reflexivity.
    + exists leap_bob, (mkField (mkdate 2000 2 29)).
      split; [simpl; auto|]. repeat split. now left.
  - refine (proj2 (X9_query_raises_iff june_now june_book _ _ _) _).
    + reflexivity.
    + reflexivity.
    + intros record b [<-|[]] Hb; inversion Hb; subst; reflexivity.
    + reflexivity.
Defined.

Lemma days_before_year_succ (y : Z) :
  days_before_year (y + 1)
  = days_before_year y + 365 + (if is_leap y then 1 else 0).
Proof.
  unfold days_before_year, is_leap. cbv zeta.
  replace (y + 1 - 1) with y by lia.
  destruct (Z.eqb_spec (y mod 4) 0) as [H4|H4];
    destruct (Z.eqb_spec (y mod 100) 0) as [H100|H100];
    destruct (Z.eqb_spec (y mod 400) 0) as [H400|H400]; simpl;
    Z.div_mod_to_equations; lia.
Qed.

Lemma date_ltb_same_year (y m d tm td : Z) :
  date_ltb (mkdate y m d) (mkdate y tm td) = true
  <-> (m < tm \/ (m = tm /\ d < td)).
Proof.
  unfold date_ltb, date_tuple. simpl. rewrite Z.compare_refl.
  destruct (Z.compare_spec m tm); [destruct (Z.compare_spec d td)| |];
    split; intros H'; try discriminate; try reflexivity; lia.
Qed.

(** The days of a year before month [m] and in month [m], by whether the
    year is a leap year. *)
Lemma days_before_month_leap (y m : Z) :
  days_before_month y m
  = nth (Z.to_nat m) [-1; 0; 31; 59; 90; 120; 151; 181; 212; 243; 273; 304; 334] (-1)
    + (if (2 <? m) && is_leap y then 1 else 0).
Proof. reflexivity. Qed.

Ltac calc_tables :=
  repeat match goal with
         | |- context [nth (Z.to_nat ?k) ?l ?d] =>
             let v := eval vm_compute in (nth (Z.to_nat k) l d) in
             change (nth (Z.to_nat k) l d) with v
         | |- context [(?a <? ?b) && ?l] =>
             let v := eval vm_compute in ((a <? b) && l) in
             change ((a <? b) && l) with v
         | |- context [(?a =? ?b) && ?l] =>
             let v := eval vm_compute in ((a =? b) && l) in
             change ((a =? b) && l) with v
         end;
  cbv iota.

Lemma year_arithmetic (L L1 : bool) (m d tm td : Z) :
  let dbm (l : bool) (k : Z) :=
    nth (Z.to_nat k) [-1; 0; 31; 59; 90; 120; 151; 181; 212; 243; 273; 304; 334] (-1)
    + (if (2 <? k) && l then 1 else 0) in
  let dim (l : bool) (k : Z) :=
    if (k =? 2) && l then 29
    else nth (Z.to_nat k) [-1; 31; 28; 31; 30; 31; 30; 31; 31; 30; 31; 30; 31] (-1) in
  1 <= m <= 12 -> 1 <= tm <= 12 ->
  1 <= td <= dim L tm -> 1 <= d ->
  (L = true -> L1 = false) ->
  ((m < tm \/ (m = tm /\ d < td)) -> d <= dim L m -> d <= dim L1 m ->
     1 <= 365 + (if L then 1 else 0) + dbm L1 m + d - (dbm L tm + td) <= 365)
  /\ (~ (m < tm \/ (m = tm /\ d < td)) -> d <= dim L m ->
        0 <= dbm L m + d - (dbm L tm + td) <= 365
        /\ (dbm L m + d - (dbm L tm + td) = 0 <-> (m = tm /\ d = td))).
Proof.
  intros dbm dim Hm Htm. subst dbm dim.
  enum_values Hm; enum_values Htm; destruct L, L1;
    calc_tables; intros Htd Hd HL;
    try (specialize (HL eq_refl); discriminate HL);
    (split; [intros; lia | intros; split; [lia | split; intros; lia]]).
Qed.

Lemma valid_date_fields (d : date) :
  valid_date d = true ->
  1 <= month d <= 12 /\ 1 <= day d <= days_in_month (year d) (month d).
Proof.
  unfold valid_date. rewrite !andb_true_iff, !Z.leb_le. lia.
Qed.

Lemma days_until_bounds (today b : date) :
  valid_date today = true -> valid_date b = true ->
  breaks_query today b = false ->
  0 <= days_until today b <= 365
  /\ (days_until today b = 0 <-> (month b = month today /\ day b = day today)).
Proof.
  intros Hvt Hvb Hnb.
  destruct today as [ty tm td], b as [yb m d].
  destruct (valid_date_fields _ Hvt) as [Htm Htd].
  destruct (valid_date_fields _ Hvb) as [Hm Hd]. simpl in *.
  pose proof (year_arithmetic (is_leap ty) (is_leap (ty + 1)) m d tm td) as A.
  cbv zeta in A. specialize (A Hm Htm Htd (proj1 Hd) (is_leap_succ ty)).
  destruct A as [Alt Age].
  unfold breaks_query in Hnb. simpl in Hnb.
  assert (Hdim : d <= days_in_month ty m).
  { destruct (is_leap_day (mkdate yb m d)) eqn:El.
    - unfold is_leap_day in El. simpl in El. apply andb_true_iff in El.
      destruct El as [Em Ed]. apply Z.eqb_eq in Em, Ed. subst m d.
      simpl in Hnb. apply orb_false_iff in Hnb. destruct Hnb as [Hl _].
      apply negb_false_iff in Hl. unfold days_in_month. rewrite Hl. simpl. lia.
    - apply (days_in_month_plain yb); auto. }
  unfold days_until, next_occurrence, days_between, toordinal. simpl.
  destruct (date_ltb (mkdate ty m d) (mkdate ty tm td)) eqn:Elt.
  - apply date_ltb_same_year in Elt. simpl.
    assert (Hplain : is_leap_day (mkdate yb m d) = false).
    { destruct (is_leap_day (mkdate yb m d)) eqn:El; [|reflexivity].
      unfold is_leap_day in El. simpl in El. apply andb_true_iff in El.
      destruct El as [Em Ed]. apply Z.eqb_eq in Em, Ed. subst m d.
      simpl in Hnb. apply orb_false_iff in Hnb. destruct Hnb as [_ Hl].
      pose proof (proj2 (date_ltb_same_year ty 2 29 tm td) Elt). congruence. }
    assert (Hdim1 : d <= days_in_month (ty + 1) m).
    { apply (days_in_month_plain yb); auto. }
    specialize (Alt Elt Hdim Hdim1).
    rewrite days_before_year_succ, !days_before_month_leap.
    split; [lia|]. split; intros H; lia.
  - assert (Hge : ~ (m < tm \/ m = tm /\ d < td)).
    { intros H. pose proof (proj2 (date_ltb_same_year ty m d tm td) H). congruence. }
    specialize (Age Hge Hdim). simpl. rewrite !days_before_month_leap.
    destruct Age as [A1 A2]. split; [lia|].
    rewrite <- A2. split; intros H; lia.
Qed.

Lemma loop_body_value today days record b acc :
  valid_date today = true -> year today < MAXYEAR ->
  Record.birthday record = Some b -> valid_date (value b) = true ->
  breaks_query today (value b) = false ->
  AddressBook.loop_body today days record acc
  = Return (if is_upcoming days today (value b)
            then (acc ++ [AddressBook.entry record (next_occurrence today (value b))])%list
            else acc).
Proof.
  intros Hv Hy Eb Hb Hnb.
  destruct (is_leap_day (value b)) eqn:El.
  - unfold breaks_query in Hnb. rewrite El in Hnb. simpl in Hnb.
    apply orb_false_iff in Hnb. destruct Hnb as [Hl Hlt].
    apply negb_false_iff in Hl.
    unfold is_leap_day in El. apply andb_true_iff in El.
    destruct El as [Em Ed]. apply Z.eqb_eq in Em, Ed.
    unfold AddressBook.loop_body. rewrite Eb. cbv zeta.
    assert (E1 : replace_year (value b) (year today) = Return (mkdate (year today) 2 29)).
    { unfold replace_year. rewrite Em, Ed. apply date_new_valid.
      pose proof (valid_date_year _ Hv) as Hty.
      unfold valid_date, days_in_month. simpl. rewrite Hl. simpl.
      rewrite !andb_true_iff, !Z.leb_le. lia. }
    rewrite E1. simpl. rewrite Hlt. simpl.
    unfold is_upcoming, days_until, next_occurrence. rewrite Em, Ed, Hlt.
    destruct (_ && _); reflexivity.
  - rewrite (loop_body_plain today days record acc Hv Hy).
    + unfold included, entry_of. now rewrite Eb.
    + intros b' Hb'. rewrite Eb in Hb'. inversion Hb'; subst. auto.
Qed.

(** X10: for a valid today before year 9999 and a stored birthday that is
    a valid date on which the year replacement does not fail, the number of
    days the loop computes is between 0 and 365, and is 0 exactly when the
    birthday's month and day are today's.  So the lower bound of the test
    [0 <= days_until_birthday <= days] never excludes a record: the record
    is appended exactly when that number is at most [days]. *)
Theorem X10_days_until_birthday (today : date) (days : Z) (record : Record.t)
    (b : Birthday.t) (upcoming_birthdays : list object) :
  valid_date today = true -> year today < MAXYEAR ->
  Record.birthday record = Some b -> valid_date (value b) = true ->
  breaks_query today (value b) = false ->
  0 <= days_until today (value b) <= 365
  /\ (days_until today (value b) = 0
      <-> (month (value b) = month today /\ day (value b) = day today))
  /\ AddressBook.loop_body today days record upcoming_birthdays
     = Return (if days_until today (value b) <=? days
               then (upcoming_birthdays
                       ++ [AddressBook.entry record (next_occurrence today (value b))])%list
               else upcoming_birthdays).
Proof.
  intros Hv Hy Eb Hb Hnb.
  destruct (days_until_bounds today (value b) Hv Hb Hnb) as [Hr Hz].
  split; [exact Hr|]. split; [exact Hz|].
  rewrite (loop_body_value today days record b upcoming_birthdays Hv Hy Eb Hb Hnb).
  unfold is_upcoming.
  replace (0 <=? days_until today (value b)) with true
    by (symmetry; apply Z.leb_le; lia).
  reflexivity.
Qed.

Lemma X10_days_until_birthday_witness :
  0 <= days_until (dt_date june_now) (mkdate 1990 6 15) <= 365
  /\ (days_until (dt_date june_now) (mkdate 1990 6 15) = 0
      <-> (6 = 6 /\ 15 = 10))
  /\ AddressBook.loop_body (dt_date june_now) 7 june_ann []
     = Return (if days_until (dt_date june_now) (mkdate 1990 6 15) <=? 7
               then [AddressBook.entry june_ann
                       (next_occurrence (dt_date june_now) (mkdate 1990 6 15))]
               else []).
Proof.
  apply (X10_days_until_birthday (dt_date june_now) 7 june_ann
           (mkField (mkdate 1990 6 15)) []); reflexivity.
Defined.

(* ===================================================================== *)
(** * [parse_input] *)
(* ===================================================================== *)

Lemma In_all_chars (c : ascii) : In c all_chars.
Proof.
  apply between_In. unfold between. apply andb_true_iff.
  rewrite !Z.leb_le. unfold code.
  pose proof (N_ascii_bounded c). change (N_of_ascii "000") with 0%N.
  change (N_of_ascii "255") with 255%N. lia.
Qed.

(** A property of characters checked on all 256 of them. *)
Lemma for_all_chars (P : ascii -> bool) :
  forallb P all_chars = true -> forall c, P c = true.
Proof.
  intros H c. rewrite forallb_forall in H. apply H, In_all_chars.
Qed.

Lemma char_lower_idempotent (c : ascii) : char_lower (char_lower c) = char_lower c.
Proof.
  apply Ascii.eqb_eq.
  apply (for_all_chars (fun c => Ascii.eqb (char_lower (char_lower c)) (char_lower c))).
  vm_compute. reflexivity.
Qed.

Lemma lower_idempotent (s : string) : lower (lower s) = lower s.
Proof.
  induction s as [|c s IH]; simpl; [reflexivity|].
  now rewrite char_lower_idempotent, IH.
Qed.

Lemma split_from_word (t rest cur : string) :
  forallb (fun c => negb (char_isspace c)) (chars t) = true ->
  split_from (t ++ rest) cur = split_from rest (cur ++ t).
Proof.
  revert cur. induction t as [|c t IH]; intros cur H; simpl.
  - now rewrite append_empty_r.
  - simpl in H. apply andb_true_iff in H. destruct H as [Hc Ht].
    apply negb_true_iff in Hc. rewrite Hc. rewrite (IH _ Ht).
    now rewrite append_assoc.
Qed.

Lemma is_word_parts (t : string) :
  is_word t = true ->
  t <> "" /\ forallb (fun c => negb (char_isspace c)) (chars t) = true.
Proof.
  unfold is_word. rewrite andb_true_iff, negb_true_iff.
  intros [H1 H2]. split; [|exact H2]. intros ->. discriminate H1.
Qed.

Lemma split_from_blank (s : string) :
  is_blank s = true -> split_from s "" = [].
Proof.
  unfold is_blank. induction s as [|c s IH]; simpl; [reflexivity|].
  rewrite andb_true_iff. intros [Hc Hs]. rewrite Hc. now apply IH.
Qed.

Lemma split_from_nil (s cur : string) :
  split_from s cur = [] -> cur = "" /\ is_blank s = true.
Proof.
  unfold is_blank. revert cur. induction s as [|c s IH]; intros cur; simpl.
  - destruct (String.eqb_spec cur ""); [auto | discriminate].
  - destruct (char_isspace c) eqn:Ec; simpl.
    + destruct (String.eqb_spec cur "") as [->|]; [|discriminate].
      intros H. split; [reflexivity | apply (IH _ H)].
    + intros H. destruct (IH _ H) as [Hcur _]. destruct cur; discriminate Hcur.
Qed.

Lemma split_join (words : list string) :
  forallb is_word words = true -> split (join " " words) = words.
Proof.
  unfold split. induction words as [|w words IH]; simpl; [reflexivity|].
  rewrite andb_true_iff. intros [Hw Hws].
  destruct (is_word_parts _ Hw) as [Hne Hns].
  destruct words as [|w' words].
  - rewrite <- (append_empty_r w) at 1. rewrite (split_from_word _ _ _ Hns).
    simpl. destruct (String.eqb_spec w ""); [contradiction | reflexivity].
  - rewrite (split_from_word _ _ _ Hns). simpl.
    destruct (String.eqb_spec w ""); [contradiction|].
    f_equal. apply IH. exact Hws.
Qed.

Lemma lstrip_word (t : string) :
  forallb (fun c => negb (char_isspace c)) (chars t) = true -> lstrip t = t.
Proof.
  destruct t as [|c t]; simpl; [reflexivity|].
  rewrite andb_true_iff, negb_true_iff. now intros [-> _].
Qed.

Lemma rstrip_word (t : string) :
  forallb (fun c => negb (char_isspace c)) (chars t) = true -> rstrip t = t.
Proof.
  induction t as [|c t IH]; simpl; [reflexivity|].
  rewrite andb_true_iff, negb_true_iff. intros [Hc Ht].
  rewrite Hc, (IH Ht). reflexivity.
Qed.

Lemma strip_word (t : string) : is_word t = true -> strip t = t.
Proof.
  intros H. destruct (is_word_parts _ H) as [_ Hns].
  unfold strip. rewrite (lstrip_word _ Hns). now apply rstrip_word.
Qed.

(** X11: [parse_input] raises [ValueError] exactly on a line of white space
    only (the empty line included).  On a line made of words joined by
    single blanks it returns the first word in lower case and the other
    words unchanged, in order; a command already in lower case is returned
    as it is. *)
Theorem X11_parse_input (user_input : string) :
  (raises (parse_input user_input) = true <-> is_blank user_input = true)
  /\ (forall e, parse_input user_input = Raise e -> exc_class e = ValueError)
  /\ (forall cmd args,
        is_word cmd = true -> forallb is_word args = true ->
        parse_input (join " " (cmd :: args)) = Return (lower cmd, args)
        /\ parse_input (join " " (lower cmd :: args)) = Return (lower cmd, args)).
Proof.
  split; [|split].
  - unfold parse_input, split. split.
    + destruct (split_from user_input "") eqn:E; [|discriminate].
      intros _. apply (split_from_nil _ _ E).
    + intros H. now rewrite (split_from_blank _ H).
  - unfold parse_input. destruct (split user_input); intros e H; inversion H.
    reflexivity.
  - intros cmd args Hc Ha.
    assert (G : forall w, is_word w = true ->
                parse_input (join " " (w :: args)) = Return (lower w, args)).
    { intros w Hw. unfold parse_input. rewrite split_join.
      - now rewrite (strip_word _ Hw).
      - simpl. now rewrite Hw, Ha. }
    split; [now apply G|].
    assert (Hl : is_word (lower cmd) = true).
    { destruct (is_word_parts _ Hc) as [Hne Hns]. unfold is_word.
      apply andb_true_iff. split.
      - destruct cmd; [contradiction | reflexivity].
      - clear -Hns. induction cmd as [|c cmd IH]; simpl in *; [reflexivity|].
        apply andb_true_iff in Hns. destruct Hns as [H1 H2].
        rewrite (IH H2), andb_true_r. revert H1.
        generalize c. intros c0 H0.
        assert (A : implb (negb (char_isspace c0))
                      (negb (char_isspace (char_lower c0))) = true).
        { apply (for_all_chars (fun c => implb (negb (char_isspace c))
                                           (negb (char_isspace (char_lower c))))).
          vm_compute. reflexivity. }
        rewrite H0 in A. exact A. }
    rewrite (G _ Hl). now rewrite lower_idempotent.
Qed.

Lemma X11_parse_input_witness :
  exc_class (Exception ValueError
               "not enough values to unpack (expected at least 1, got 0)") = ValueError
  /\ parse_input "ADD john 1234567890" = Return ("add", ["john"; "1234567890"]).
Proof.
  split.
  - apply (proj1 (proj2 (X11_parse_input "  "))). reflexivity.
  - apply (proj1 (proj2 (proj2 (X11_parse_input ""))
                    "ADD" ["john"; "1234567890"] eq_refl eq_refl)).
Defined.

(* ===================================================================== *)
(** * The handlers *)
(* ===================================================================== *)

Lemma dict_setitem_same {V : Type} (k : string) (v : V) (d : dict V) :
  dict_get k d = Some v -> dict_setitem k v d = d.
Proof.
  induction d as [|[k' v'] d IH]; simpl; [discriminate|].
  destruct (String.eqb_spec k' k) as [E|E].
  - intros H; inversion H; subst. reflexivity.
  - intros H. now rewrite (IH H).
Qed.

Lemma with_record_same key record book :
  AddressBook.find key book = Some record -> with_record key record book = book.
Proof.
  intros H. unfold with_record. unfold AddressBook.find in H.
  rewrite (dict_setitem_same _ _ _ H). now destruct book.
Qed.

Lemma dict_setitem_twice {V : Type} (k : string) (v1 v2 : V) (d : dict V) :
  dict_setitem k v2 (dict_setitem k v1 d) = dict_setitem k v2 d.
Proof.
  induction d as [|[k' v'] d IH]; simpl.
  - now rewrite String.eqb_refl.
  - destruct (String.eqb_spec k' k) as [E|E]; simpl.
    + subst. now rewrite String.eqb_refl.
    + destruct (String.eqb_spec k' k); [contradiction|]. now rewrite IH.
Qed.

Lemma find_with_record key record book :
  AddressBook.find key (with_record key record book) = Some record.
Proof. apply dict_get_setitem_eq. Qed.

Lemma find_None_keys name book :
  AddressBook.find name book = None -> ~ In name (keys book).
Proof. apply dict_get_None. Qed.

Ltac run_handler :=
  cbv beta iota delta [bindM lift ret gets on_record modify AddressBook.add_record].

Ltac fold_with_record :=
  change (AddressBook.mk (dict_setitem ?k ?r (AddressBook.data ?b)))
    with (with_record k r b) in *.

(** X12: [add_contact] on a name that is not in the directory, the name
    taken in its capitalized form.  A name shorter than two characters
    changes nothing and is answered with the text for [ValueError]; a
    longer name with a phone that [Phone] accepts appends a new record
    with that one phone and is answered "Contact added."; a longer name
    with a phone that [Phone] rejects is answered with the text for
    [ValueError], and yet the new record, without phones, has been
    appended to the directory. *)
Theorem X12_add_contact_new (name phone n : string) (others : list string)
    (book : AddressBook.t) :
  capitalize name = Some n ->
  AddressBook.find n book = None ->
  (len n < 2 ->
     add_contact (name :: phone :: others) book = Some (Text ValueError_text, book))
  /\ (2 <= len n -> raises (Phone.__init__ phone) = false ->
        add_contact (name :: phone :: others) book
        = Some (Text "Contact added.",
                AddressBook.mk
                  (AddressBook.data book
                     ++ [(n, Record.mk (mkField n) [mkField phone] None)])%list))
  /\ (2 <= len n -> phone <> "" -> raises (Phone.__init__ phone) = true ->
        add_contact (name :: phone :: others) book
        = Some (Text ValueError_text,
                AddressBook.mk (AddressBook.data book ++ [(n, new_record n)])%list)).
Proof.
  intros Hcap Hfind.
  unfold add_contact, input_error, add_contact_body, capitalized.
  rewrite Hcap. run_handler. rewrite Hfind.
  split; [|split].
  - intros Hl. destruct (Record_init_cases n) as [[Hl' _]|[_ E]]; [lia|].
    rewrite E. reflexivity.
  - intros Hl Hp. destruct (Record_init_cases n) as [[_ E]|[Hl' _]]; [|lia].
    assert (Hne : (phone =? "")%string = false).
    { destruct phone; [discriminate Hp | reflexivity]. }
    rewrite E. cbv beta iota. rewrite Hne.
    cbv beta iota delta [negb fst snd]. rewrite (add_phone_ok _ _ Hp). simpl.
    rewrite dict_setitem_twice.
    now rewrite (dict_setitem_new _ _ _ (find_None_keys _ _ Hfind)).
  - intros Hl Hne Hp. destruct (Record_init_cases n) as [[_ E]|[Hl' _]]; [|lia].
    apply String.eqb_neq in Hne.
    rewrite E. cbv beta iota. rewrite Hne.
    cbv beta iota delta [negb fst snd]. rewrite (add_phone_fail _ _ Hp). simpl.
    rewrite dict_setitem_twice.
    now rewrite (dict_setitem_new _ _ _ (find_None_keys _ _ Hfind)).
Qed.

Lemma X12_add_contact_new_witness :
  add_contact ["k"; "1234567890"] bob_book = Some (Text ValueError_text, bob_book)
  /\ add_contact ["kate"; "1234567890"] bob_book
     = Some (Text "Contact added.",
             AddressBook.mk
               (AddressBook.data bob_book
                  ++ [("Kate", Record.mk (mkField "Kate") [mkField "1234567890"] None)])%list)
  /\ add_contact ["kate"; "12-34"] bob_book
     = Some (Text ValueError_text,
             AddressBook.mk
               (AddressBook.data bob_book ++ [("Kate", new_record "Kate")])%list).
Proof.
  split; [|split].
  - apply (proj1 (X12_add_contact_new "k" "1234567890" "K" [] bob_book
                    eq_refl eq_refl)). reflexivity.
  - apply (proj1 (proj2 (X12_add_contact_new "kate" "1234567890" "Kate" [] bob_book
                           eq_refl eq_refl))).
    + discriminate.
    + reflexivity.
  - apply (proj2 (proj2 (X12_add_contact_new "kate" "12-34" "Kate" [] bob_book
                           eq_refl eq_refl))).
    + discriminate.
    + discriminate.
    + reflexivity.
Defined.

(** X13: [add_contact] on a name that is in the directory, the name taken
    in its capitalized form.  A phone that [Phone] accepts is appended to
    the phones of the stored record, which keeps its place, and the answer
    is "Contact updated."; a phone that [Phone] rejects leaves the
    directory as it was and is answered with the text for [ValueError]. *)
Theorem X13_add_contact_existing (name phone n : string) (others : list string)
    (book : AddressBook.t) (record : Record.t) :
  capitalize name = Some n ->
  AddressBook.find n book = Some record ->
  (raises (Phone.__init__ phone) = false ->
     add_contact (name :: phone :: others) book
     = Some (Text "Contact updated.",
             with_record n
               (Record.set_phones (Record.phones record ++ [mkField phone])%list record)
               book))
  /\ (phone <> "" -> raises (Phone.__init__ phone) = true ->
        add_contact (name :: phone :: others) book = Some (Text ValueError_text, book)).
Proof.
  intros Hcap Hfind.
  unfold add_contact, input_error, add_contact_body, capitalized.
  rewrite Hcap. run_handler. rewrite Hfind.
  split.
  - intros Hp.
    assert (Hne : (phone =? "")%string = false).
    { destruct phone; [discriminate Hp | reflexivity]. }
    rewrite Hne. cbv beta iota delta [negb fst snd].
    now rewrite (add_phone_ok _ _ Hp).
  - intros Hne Hp. apply String.eqb_neq in Hne.
    rewrite Hne. cbv beta iota delta [negb fst snd].
    rewrite (add_phone_fail _ _ Hp). simpl.
    fold_with_record. now rewrite (with_record_same _ _ _ Hfind).
Qed.

Lemma X13_add_contact_existing_witness :
  add_contact ["BOB"; "1234567890"] bob_book
  = Some (Text "Contact updated.",
          with_record "Bob" (Record.mk (mkField "Bob") [mkField "1234567890"] None)
            bob_book)
  /\ add_contact ["bob"; "12"] bob_book = Some (Text ValueError_text, bob_book).
Proof.
  split.
  - apply (proj1 (X13_add_contact_existing "BOB" "1234567890" "Bob" [] bob_book
                    (Record.mk (mkField "Bob") [] None) eq_refl eq_refl)).
    reflexivity.
  - apply (proj2 (X13_add_contact_existing "bob" "12" "Bob" [] bob_book
                    (Record.mk (mkField "Bob") [] None) eq_refl eq_refl)).
    + discriminate.
    + reflexivity.
Defined.

Lemma edit_phone_raise_class old_number new_number self e :
  fst (Record.edit_phone old_number new_number self) = Raise e ->
  exc_class e = ValueError.
Proof.
  unfold Record.edit_phone, Record.find_phone.
  destruct (Record.find_phone_in old_number (Record.phones self)).
  - destruct (Phone_init_cases new_number) as [(_ & E & _)|(_ & E)];
      unfold bindM, lift, modify, try_except_ValueError; rewrite E; simpl;
      [discriminate|]. intros H; now inversion H.
  - simpl. intros H; now inversion H.
Qed.

(** X14: [change_contact], the name taken in its capitalized form.  For a
    name that is not in the directory the answer is "Contact not found" and
    nothing changes.  For a stored name the record's [edit_phone] is
    called: when it raises (old number not stored, or new number rejected)
    the answer is the text for [ValueError] and nothing changes; when it
    returns, the stored record is the edited one, in its place, and the
    answer is "Contact updated". *)
Theorem X14_change_contact (name old_phone new_phone n : string)
    (others : list string) (book : AddressBook.t) :
  capitalize name = Some n ->
  (AddressBook.find n book = None ->
     change_contact (name :: old_phone :: new_phone :: others) book
     = Some (Text "Contact not found", book))
  /\ (forall record, AddressBook.find n book = Some record ->
        (raises (fst (Record.edit_phone old_phone new_phone record)) = true ->
           change_contact (name :: old_phone :: new_phone :: others) book
           = Some (Text ValueError_text, book))
        /\ (raises (fst (Record.edit_phone old_phone new_phone record)) = false ->
              change_contact (name :: old_phone :: new_phone :: others) book
              = Some (Text "Contact updated",
                      with_record n
                        (snd (Record.edit_phone old_phone new_phone record)) book))).
Proof.
  intros Hcap.
  unfold change_contact, input_error, change_contact_body, capitalized.
  rewrite Hcap. run_handler.
  split.
  - intros ->. reflexivity.
  - intros record Hfind. rewrite Hfind.
    pose proof (edit_phone_raise_class old_phone new_phone record) as Hc.
    pose proof (edit_phone_unchanged_on_raise old_phone new_phone record) as Hu.
    destruct (Record.edit_phone old_phone new_phone record) as [[[]|e] record'];
      simpl in *; split; intros H; try discriminate H.
    + reflexivity.
    + rewrite (Hc e eq_refl), (Hu e eq_refl).
      fold (with_record n record book).
      now rewrite (with_record_same _ _ _ Hfind).
Qed.

Lemma X14_change_contact_witness :
  change_contact ["ann"; "1"; "2"] bob_book = Some (Text "Contact not found", bob_book)
  /\ change_contact ["bob"; "1111111111"; "2222222222"] bob_book
     = Some (Text ValueError_text, bob_book)
  /\ change_contact ["al"; "1111111111"; "2222222222"]
       (with_record "Al" al_one_phone AddressBook.empty)
     = Some (Text "Contact updated",
             with_record "Al" (Record.mk (mkField "Al") [mkField "2222222222"] None)
               AddressBook.empty).
Proof.
  split; [|split].
  - apply (proj1 (X14_change_contact "ann" "1" "2" "Ann" [] bob_book eq_refl)).
    reflexivity.
  - apply (proj1 (proj2 (X14_change_contact "bob" "1111111111" "2222222222" "Bob" []
                           bob_book eq_refl)
                    (Record.mk (mkField "Bob") [] None) eq_refl)).
    reflexivity.
  - apply (proj2 (proj2 (X14_change_contact "al" "1111111111" "2222222222" "Al" []
                           (with_record "Al" al_one_phone AddressBook.empty) eq_refl)
                    al_one_phone eq_refl)).
    reflexivity.
Defined.

(** X15: [delete_contact], the name taken in its capitalized form.  For a
    name that is not a key nothing changes, and the answer is the text for
    [ValueError], "Give me name and phone please."; for a key the entry is
    removed, the others keep their order, and the answer is "Contact
    deleted.". *)
Theorem X15_delete_contact (name n : string) (others : list string)
    (book : AddressBook.t) :
  capitalize name = Some n ->
  (~ In n (keys book) ->
     delete_contact (name :: others) book = Some (Text ValueError_text, book))
  /\ (In n (keys book) ->
        delete_contact (name :: others) book
        = Some (Text "Contact deleted.",
                AddressBook.mk (filter (other_key n) (AddressBook.data book)))).
Proof.
  intros Hcap.
  unfold delete_contact, input_error, delete_contact_body, capitalized.
  rewrite Hcap. run_handler.
  split; intros H.
  - now rewrite (delete_absent _ _ H).
  - now rewrite (delete_present _ _ H).
Qed.

Lemma X15_delete_contact_witness :
  delete_contact ["ann"] bob_book = Some (Text ValueError_text, bob_book)
  /\ delete_contact ["BOB"; "now"] bob_book
     = Some (Text "Contact deleted.", AddressBook.empty).
Proof.
  split.
  - apply (proj1 (X15_delete_contact "ann" "Ann" [] bob_book eq_refl)).
    simpl. intros [H|[]]; discriminate H.
  - apply (proj2 (X15_delete_contact "BOB" "Bob" ["now"] bob_book eq_refl)).
    simpl. now left.
Defined.

(** X16: [delete_number], the name taken in its capitalized form.  For a
    stored name the answer is always "Phone number deleted.", also when the
    record holds no such phone, in which case the directory is as it was;
    otherwise every phone equal to the number is gone from the stored
    record.  For a name that is not in the directory the answer is "Contact
    not found" and nothing changes. *)
Theorem X16_delete_number (name phone n : string) (others : list string)
    (book : AddressBook.t) :
  capitalize name = Some n ->
  (AddressBook.find n book = None ->
     delete_number (name :: phone :: others) book
     = Some (Text "Contact not found", book))
  /\ (forall record, AddressBook.find n book = Some record ->
        delete_number (name :: phone :: others) book
        = Some (Text "Phone number deleted.",
                with_record n
                  (Record.set_phones (filter (keeps phone) (Record.phones record)) record)
                  book)
        /\ (~ In phone (map value (Record.phones record)) ->
              delete_number (name :: phone :: others) book
              = Some (Text "Phone number deleted.", book))).
Proof.
  intros Hcap.
  unfold delete_number, input_error, delete_number_body, capitalized.
  rewrite Hcap. run_handler.
  split.
  - intros ->. reflexivity.
  - intros record Hfind. rewrite Hfind. rewrite delete_phone_eq.
    split; [reflexivity|].
    intros Hn. rewrite (filter_keeps_all _ _ Hn), set_phones_same.
    fold (with_record n record book). now rewrite (with_record_same _ _ _ Hfind).
Qed.

Lemma X16_delete_number_witness :
  delete_number ["ann"; "1"] bob_book = Some (Text "Contact not found", bob_book)
  /\ delete_number ["bob"; "1111111111"] bob_book
     = Some (Text "Phone number deleted.", bob_book).
Proof.
  split.
  - apply (proj1 (X16_delete_number "ann" "1" "Ann" [] bob_book eq_refl)).
    reflexivity.
  - apply (proj2 (proj2 (X16_delete_number "bob" "1111111111" "Bob" [] bob_book eq_refl)
                    (Record.mk (mkField "Bob") [] None) eq_refl)).
    simpl. tauto.
Defined.

Lemma for_each_raise_class today days records acc e :
  for_each (AddressBook.loop_body today days) records acc = Raise e ->
  exc_class e = ValueError.
Proof.
  revert acc. induction records as [|r records IH]; intros acc; simpl; [discriminate|].
  destruct (AddressBook.loop_body today days r acc) as [acc'|e'] eqn:E.
  - apply IH.
  - intros H; inversion H; subst. apply (loop_body_raise _ _ _ _ _ E).
Qed.

Lemma query_raise_class now book e :
  AddressBook.get_upcoming_birthdays now book = Raise e -> exc_class e = ValueError.
Proof.
  unfold AddressBook.get_upcoming_birthdays.
  destruct (for_each _ _ _) as [l|e'] eqn:E; simpl; [discriminate|].
  intros H; inversion H; subst. apply (for_each_raise_class _ _ _ _ _ E).
Qed.

(** X17: the [birthdays] command never changes the directory and answers
    with what the query returns; when the query raises, which it does
    whenever a stored birthday is 29 February and today's year is not a
    leap year, the answer is the text for [ValueError], "Give me name and
    phone please.". *)
Theorem X17_birthdays (now : datetime) (book : AddressBook.t) :
  birthdays now book
  = Some (match AddressBook.get_upcoming_birthdays now book with
          | Return o => Obj o
          | Raise _ => Text ValueError_text
          end, book)
  /\ (forall record b,
        In record (values book) -> Record.birthday record = Some b ->
        month (value b) = 2 -> day (value b) = 29 ->
        is_leap (year (dt_date now)) = false ->
        birthdays now book = Some (Text ValueError_text, book)).
Proof.
  assert (E : birthdays now book
              = Some (match AddressBook.get_upcoming_birthdays now book with
                      | Return o => Obj o
                      | Raise _ => Text ValueError_text
                      end, book)).
  { unfold birthdays, input_error, birthdays_body.
    pose proof (query_raise_class now book) as Hc.
    destruct (AddressBook.get_upcoming_birthdays now book) as [o|e]; simpl.
    - reflexivity.
    - now rewrite (Hc e eq_refl). }
  split; [exact E|].
  intros record b Hin Hb Hm Hd Hl. rewrite E.
  unfold AddressBook.get_upcoming_birthdays. fold (values book).
  destruct (for_each_leap_day (dt_date now) 7 _ record b Hin Hb Hm Hd Hl [])
    as [msg ->].
  reflexivity.
Qed.

Lemma X17_birthdays_witness :
  birthdays leap_now leap_book = Some (Text ValueError_text, leap_book).
Proof.
  apply (proj2 (X17_birthdays leap_now leap_book) leap_bob
           (mkField (mkdate 2000 2 29))).
  - simpl. right. now left.
  - reflexivity.
  - reflexivity.
  - reflexivity.
  - reflexivity.
Defined.

Lemma Birthday_init_strftime (now : datetime) (dte : date) :
  valid_datetime now = true -> valid_date dte = true ->
  date_ltb (dt_date now) dte = false ->
  Birthday.__init__ now (strftime_dmY dte) = Return (mkField dte).
Proof.
  intros Hv Hd Hl. rewrite (Birthday_init_eq now _ Hv).
  rewrite (strptime_dmY_complete _ _ Hd (strftime_parses_as dte)). simpl.
  now rewrite Hl.
Qed.

(** X18: for a stored name, taken in its capitalized form, and a valid
    clock: [add_birthday] with the DD.MM.YYYY text of a valid date that is
    not after today stores that date in the record and answers "Birthday
    added to contact <Name>"; [show_birthday] then returns the stored
    birthday, which prints in the form YYYY-MM-DD.  With a text that
    [Birthday] refuses, [add_birthday] changes nothing and answers with the
    text for [ValueError]. *)
Theorem X18_add_then_show_birthday (now : datetime) (name n text : string)
    (others others' : list string) (book : AddressBook.t) (record : Record.t) :
  capitalize name = Some n ->
  AddressBook.find n book = Some record ->
  valid_datetime now = true ->
  (forall dte, valid_date dte = true -> date_ltb (dt_date now) dte = false ->
     let book' := with_record n (Record.set_birthday (Some (mkField dte)) record) book in
     add_birthday now (name :: strftime_dmY dte :: others) book
     = Some (Text ("Birthday added to contact " ++ n), book')
     /\ show_birthday (name :: others') book'
        = Some (BirthdayObj (Some (mkField dte)), book')
     /\ str_of_reply (BirthdayObj (Some (mkField dte))) = isoformat dte)
  /\ (raises (Birthday.__init__ now text) = true ->
        add_birthday now (name :: text :: others) book
        = Some (Text ValueError_text, book)).
Proof.
  intros Hcap Hfind Hv. split.
  - intros dte Hd Hl book'. subst book'. split; [|split].
    + unfold add_birthday, input_error, add_birthday_body, capitalized.
      rewrite Hcap. run_handler. rewrite Hfind.
      unfold Record.add_birthday. run_handler.
      now rewrite (Birthday_init_strftime now dte Hv Hd Hl).
    + unfold show_birthday, input_error, show_birthday_body, capitalized.
      rewrite Hcap. run_handler. now rewrite find_with_record.
    + reflexivity.
  - intros Hr.
    unfold add_birthday, input_error, add_birthday_body, capitalized.
    rewrite Hcap. run_handler. rewrite Hfind.
    destruct (add_birthday_cases now text record) as [(b & Hb & _)|(e & He & ->)].
    + rewrite Hb in Hr. discriminate Hr.
    + assert (Hc : exc_class e = ValueError).
      { revert He. rewrite (Birthday_init_eq now text Hv).
        destruct (strptime_dmY text) as [t|e'].
        - destruct (date_ltb (dt_date now) (dt_date t)); [|discriminate].
          intros H; now inversion H.
        - intros H; now inversion H. }
      rewrite Hc. fold (with_record n record book).
      now rewrite (with_record_same _ _ _ Hfind).
Qed.

Lemma X18_add_then_show_birthday_witness :
  add_birthday june_now ["ann"; "15.06.1990"] (with_record "Ann" ann_second bob_book)
  = Some (Text "Birthday added to contact Ann", with_record "Ann" june_ann bob_book)
  /\ add_birthday june_now ["ann"; "15/06/1990"] (with_record "Ann" ann_second bob_book)
     = Some (Text ValueError_text, with_record "Ann" ann_second bob_book).
Proof.
  split.
  - apply (proj1 (proj1 (X18_add_then_show_birthday june_now "ann" "Ann" "" [] []
                           (with_record "Ann" ann_second bob_book) ann_second
                           eq_refl eq_refl eq_refl)
                    (mkdate 1990 6 15) eq_refl eq_refl)).
  - apply (proj2 (X18_add_then_show_birthday june_now "ann" "Ann" "15/06/1990" [] []
                    (with_record "Ann" ann_second bob_book) ann_second
                    eq_refl eq_refl eq_refl)).
    reflexivity.
Defined.

(** X19: a handler called with fewer arguments than it unpacks -- two for
    [add_contact], [delete_number] and [add_birthday], three for
    [change_contact], one for [delete_contact], [show_phone] and
    [show_birthday] -- leaves the directory as it was and answers with the
    text for [ValueError], "Give me name and phone please."; the text
    provided for [IndexError] is not used. *)
Theorem X19_too_few_arguments (now : datetime) (args : list string)
    (book : AddressBook.t) :
  ((List.length args < 2)%nat ->
     add_contact args book = Some (Text ValueError_text, book)
     /\ delete_number args book = Some (Text ValueError_text, book)
     /\ add_birthday now args book = Some (Text ValueError_text, book))
  /\ ((List.length args < 3)%nat ->
        change_contact args book = Some (Text ValueError_text, book))
  /\ ((List.length args < 1)%nat ->
        delete_contact args book = Some (Text ValueError_text, book)
        /\ show_phone args book = Some (Text ValueError_text, book)
        /\ show_birthday args book = Some (Text ValueError_text, book)).
Proof.
  split; [|split].
  - intros H. destruct args as [|a [|b args]]; simpl in H; try lia;
      repeat split; reflexivity.
  - intros H. destruct args as [|a [|b [|c args]]]; simpl in H; try lia; reflexivity.
  - intros H. destruct args as [|a args]; simpl in H; try lia;
      repeat split; reflexivity.
Qed.

Lemma X19_too_few_arguments_witness :
  add_contact ["john"] bob_book = Some (Text ValueError_text, bob_book)
  /\ change_contact ["john"; "1111111111"] bob_book = Some (Text ValueError_text, bob_book)
  /\ show_phone [] bob_book = Some (Text ValueError_text, bob_book).
Proof.
  split; [|split].
  - apply (proj1 (X19_too_few_arguments june_now ["john"] bob_book)). simpl. lia.
  - apply (proj1 (proj2 (X19_too_few_arguments june_now ["john"; "1111111111"] bob_book))).
    simpl. lia.
  - apply (proj2 (proj2 (X19_too_few_arguments june_now [] bob_book))). simpl. lia.
Defined.

(* ===================================================================== *)
(** * What every handler keeps *)
(* ===================================================================== *)

Lemma find_book_ok key record book :
  book_ok book -> AddressBook.find key book = Some record ->
  value (Record.name record) = key /\ record_ok record = true.
Proof.
  intros (_ & Hn & Hr) Hfind. apply dict_get_In in Hfind.
  unfold keys_named in Hn. rewrite forallb_forall in Hn, Hr. split.
  - specialize (Hn _ Hfind). simpl in Hn. apply String.eqb_eq in Hn. now symmetry.
  - apply Hr. unfold values, dict_values. apply in_map_iff. now exists (key, record).
Qed.

Lemma forallb_values_setitem (f : Record.t -> bool) key record (d : dict Record.t) :
  forallb f (dict_values d) = true -> f record = true ->
  forallb f (dict_values (dict_setitem key record d)) = true.
Proof.
  intros Hd Hr. induction d as [|[k' v'] d IH]; simpl in *.
  - now rewrite Hr.
  - apply andb_true_iff in Hd. destruct Hd as [H1 H2].
    destruct (String.eqb_spec k' key); simpl.
    + now rewrite Hr, H2.
    + now rewrite H1, (IH H2).
Qed.

Lemma keys_named_with_record key record book :
  keys_named book = true -> value (Record.name record) = key ->
  keys_named (with_record key record book) = true.
Proof.
  intros H <-. now apply keys_named_setitem.
Qed.

Lemma book_ok_with_record key record book :
  book_ok book -> record_ok record = true -> value (Record.name record) = key ->
  book_ok (with_record key record book).
Proof.
  intros (Hwf & Hn & Hr) Hrec Hkey. split; [|split].
  - unfold book_wf, with_record. simpl. now apply dict_wf_setitem.
  - now apply keys_named_with_record.
  - unfold values, with_record. simpl. now apply forallb_values_setitem.
Qed.

Lemma book_ok_delete name book :
  book_ok book -> book_ok (snd (AddressBook.delete name book)).
Proof.
  intros (Hwf & Hn & Hr).
  destruct (in_dec string_dec name (keys book)) as [I|I].
  - rewrite (delete_present _ _ I). simpl. split; [|split].
    + now apply dict_wf_filter.
    + unfold keys_named in *. simpl. now apply forallb_filter.
    + unfold values, dict_values in *. simpl.
      rewrite forallb_forall in *. intros r Hin. apply Hr.
      apply in_map_iff in Hin. destruct Hin as (kv & <- & Hkv).
      apply filter_In in Hkv. apply in_map. tauto.
  - rewrite (delete_absent _ _ I). simpl. repeat split; assumption.
Qed.

Lemma book_ok_empty : book_ok AddressBook.empty.
Proof. split; [apply book_wf_empty | split; reflexivity]. Qed.

Lemma delete_raise_class name book e :
  fst (AddressBook.delete name book) = Raise e -> exc_class e = ValueError.
Proof.
  destruct (in_dec string_dec name (keys book)) as [I|I].
  - rewrite (delete_present _ _ I). discriminate.
  - rewrite (delete_absent _ _ I). intros H; now inversion H.
Qed.

Lemma add_phone_raise_class number self e :
  fst (Record.add_phone number self) = Raise e -> exc_class e = ValueError.
Proof.
  destruct (Phone_init_cases number) as [(R & _)|(R & _)].
  - rewrite (add_phone_ok _ _ R). discriminate.
  - rewrite (add_phone_fail _ _ R). intros H; now inversion H.
Qed.

Lemma Birthday_init_raise_class now text e :
  Birthday.__init__ now text = Raise e -> exc_class e = ValueError.
Proof.
  unfold Birthday.__init__, try_except_ValueError.
  destruct (strptime_dmY text) as [t|e'] eqn:E.
  - simpl. destruct (datetime_gtb t now); [|discriminate].
    intros H; now inversion H.
  - rewrite (strptime_dmY_raise _ _ E). simpl. intros H; now inversion H.
Qed.

Lemma add_birthday_raise_class now text self e :
  fst (Record.add_birthday now text self) = Raise e -> exc_class e = ValueError.
Proof.
  destruct (add_birthday_cases now text self) as [(b & _ & ->)|(e' & He & ->)].
  - discriminate.
  - simpl. intros H; inversion H; subst. apply (Birthday_init_raise_class _ _ _ He).
Qed.

(** A method of [Record] called through the directory: the directory holds
    what the method left, and [book_ok] is kept when the method keeps
    [record_ok] and the name. *)
Lemma on_record_well_behaved {A : Type} key record (m : method Record.t A) book :
  AddressBook.find key book = Some record ->
  (record_ok record = true -> record_ok (snd (m record)) = true) ->
  Record.name (snd (m record)) = Record.name record ->
  snd (on_record key record m book) = with_record key (snd (m record)) book
  /\ fst (on_record key record m book) = fst (m record)
  /\ (book_ok book -> book_ok (snd (on_record key record m book))).
Proof.
  intros Hfind Hrec Hname. unfold on_record.
  destruct (m record) as [r record'] eqn:E. simpl in *.
  split; [reflexivity|]. split; [reflexivity|].
  intros Hok. destruct (find_book_ok _ _ _ Hok Hfind) as [Hk Hr].
  fold (with_record key record' book).
  apply book_ok_with_record; [exact Hok | now apply Hrec | now rewrite Hname].
Qed.

Ltac not_other_texts :=
  split; unfold KeyError_text, IndexError_text, ValueError_text;
  simpl; discriminate.

Lemma unpack_well_behaved (expected : Z) (args : list string) :
  well_behaved (input_error (unpack_error expected args)).
Proof.
  intros book r book' H. unfold input_error, unpack_error, raise_ in H.
  simpl in H. inversion H; subst. split; [not_other_texts | auto].
Qed.

(** The handlers that look a record up and call one of its methods. *)
Lemma via_record_well_behaved (name : string) (m : string -> method Record.t unit)
    (answer : string -> reply) (not_found : reply) :
  (forall n record,
     (record_ok record = true -> record_ok (snd (m n record)) = true)
     /\ Record.name (snd (m n record)) = Record.name record
     /\ (forall e, fst (m n record) = Raise e -> exc_class e = ValueError)) ->
  (forall n, answer n <> Text KeyError_text /\ answer n <> Text IndexError_text) ->
  (not_found <> Text KeyError_text /\ not_found <> Text IndexError_text) ->
  well_behaved
    (input_error
       (capitalized name (fun n book =>
          match AddressBook.find n book with
          | Some record => (_ <~ on_record n record (m n) ;; ret (answer n)) book
          | None => ret not_found book
          end))).
Proof.
  intros Hm Ha Hn book r book' H.
  unfold input_error, capitalized in H.
  destruct (capitalize name) as [n|]; [|discriminate H].
  destruct (AddressBook.find n book) as [record|] eqn:Hfind.
  - destruct (Hm n record) as (Hrec & Hname & Hclass).
    destruct (on_record_well_behaved n record (m n) book Hfind Hrec Hname)
      as (_ & Hf & Hok).
    unfold bindM, ret in H.
    destruct (on_record n record (m n) book) as [res b1]. simpl in Hf, Hok.
    destruct res as [[]|e]; inversion H; subst.
    + split; [apply Ha | exact Hok].
    + rewrite (Hclass e (eq_sym Hf)). split; [not_other_texts | exact Hok].
  - unfold ret in H. inversion H; subst. split; [exact Hn | auto].
Qed.

Lemma change_contact_well_behaved args : well_behaved (change_contact args).
Proof.
  unfold change_contact, change_contact_body.
  destruct args as [|name [|old_phone [|new_phone others]]];
    try apply unpack_well_behaved.
  apply (via_record_well_behaved name
           (fun _ => Record.edit_phone old_phone new_phone)
           (fun _ => Text "Contact updated") (Text "Contact not found")).
  - intros n record. split; [|split].
    + apply record_ok_edit_phone.
    + apply Record_edit_phone_name.
    + apply edit_phone_raise_class.
  - intros n. not_other_texts.
  - not_other_texts.
Qed.

Lemma delete_number_well_behaved args : well_behaved (delete_number args).
Proof.
  unfold delete_number, delete_number_body.
  destruct args as [|name [|phone others]]; try apply unpack_well_behaved.
  apply (via_record_well_behaved name
           (fun _ => Record.delete_phone phone)
           (fun _ => Text "Phone number deleted.") (Text "Contact not found")).
  - intros n record. split; [|split].
    + apply record_ok_delete_phone.
    + apply Record_delete_phone_name.
    + intros e H. discriminate H.
  - intros n. not_other_texts.
  - not_other_texts.
Qed.

Lemma add_birthday_well_behaved now args : well_behaved (add_birthday now args).
Proof.
  unfold add_birthday, add_birthday_body.
  destruct args as [|name [|birthday others]]; try apply unpack_well_behaved.
  apply (via_record_well_behaved name
           (fun _ => Record.add_birthday now birthday)
           (fun n => Text ("Birthday added to contact " ++ n))
           (Text "Contact not found.")).
  - intros n record. split; [|split].
    + apply record_ok_add_birthday.
    + apply Record_add_birthday_name.
    + apply add_birthday_raise_class.
  - intros n. not_other_texts.
  - not_other_texts.
Qed.

Lemma delete_contact_well_behaved args : well_behaved (delete_contact args).
Proof.
  unfold delete_contact, delete_contact_body.
  destruct args as [|name others]; try apply unpack_well_behaved.
  intros book r book' H. unfold input_error, capitalized in H.
  destruct (capitalize name) as [n|]; [|discriminate H].
  unfold bindM, ret in H.
  pose proof (delete_raise_class n book) as Hc.
  pose proof (book_ok_delete n book) as Hok.
  destruct (AddressBook.delete n book) as [[[]|e] b1]; simpl in *;
    inversion H; subst.
  - split; [not_other_texts | exact Hok].
  - rewrite (Hc e eq_refl). split; [not_other_texts | exact Hok].
Qed.

Lemma show_phone_well_behaved args : well_behaved (show_phone args).
Proof.
  unfold show_phone, show_phone_body.
  destruct args as [|name others]; try apply unpack_well_behaved.
  intros book r book' H. unfold input_error, capitalized in H.
  destruct (capitalize name) as [n|]; [|discriminate H].
  destruct (AddressBook.find n book); unfold ret in H; inversion H; subst;
    (split; [not_other_texts | auto]).
Qed.

Lemma show_birthday_well_behaved args : well_behaved (show_birthday args).
Proof.
  unfold show_birthday, show_birthday_body.
  destruct args as [|name others]; try apply unpack_well_behaved.
  intros book r book' H. unfold input_error, capitalized in H.
  destruct (capitalize name) as [n|]; [|discriminate H].
  destruct (AddressBook.find n book); unfold ret in H; inversion H; subst;
    (split; [not_other_texts | auto]).
Qed.

Lemma birthdays_well_behaved now : well_behaved (birthdays now).
Proof.
  intros book r book' H. unfold birthdays, input_error, birthdays_body in H.
  pose proof (query_raise_class now book) as Hc.
  destruct (AddressBook.get_upcoming_birthdays now book) as [o|e]; simpl in H;
    inversion H; subst.
  - split; [not_other_texts | auto].
  - rewrite (Hc e eq_refl). split; [not_other_texts | auto].
Qed.

Lemma record_ok_new_record (n : string) : 2 <= len n -> record_ok (new_record n) = true.
Proof.
  intros H. unfold record_ok, new_record. simpl. rewrite !andb_true_r.
  now apply Z.leb_le.
Qed.

Lemma add_contact_well_behaved args : well_behaved (add_contact args).
Proof.
  unfold add_contact, add_contact_body.
  destruct args as [|name [|phone others]]; try apply unpack_well_behaved.
  intros book r book' H. unfold input_error, capitalized in H.
  destruct (capitalize name) as [n|]; [|discriminate H].
  cbv beta iota delta [bindM lift ret on_record modify AddressBook.add_record] in H.
  destruct (AddressBook.find n book) as [record|] eqn:Hfind.
  - (* the name is stored *)
    cbv beta iota delta [fst snd] in H.
    destruct (negb (phone =? "")%string).
    + pose proof (record_ok_add_phone phone record) as Hrec.
      pose proof (Record_add_phone_name phone record) as Hname.
      pose proof (add_phone_raise_class phone record) as Hclass.
      destruct (Record.add_phone phone record) as [[[]|e] record']; simpl in *;
        inversion H; subst; clear H.
      * split; [not_other_texts|]. intros Hok.
        destruct (find_book_ok _ _ _ Hok Hfind) as [Hk Hr].
        apply (book_ok_with_record n record' book Hok (Hrec Hr)).
        now rewrite Hname.
      * rewrite (Hclass e eq_refl). split; [not_other_texts|]. intros Hok.
        destruct (find_book_ok _ _ _ Hok Hfind) as [Hk Hr].
        apply (book_ok_with_record n record' book Hok (Hrec Hr)).
        now rewrite Hname.
    + inversion H; subst. split; [not_other_texts | auto].
  - (* a new name *)
    destruct (Record_init_cases n) as [[Hl E]|[Hl E]]; rewrite E in H.
    + cbv beta iota delta [fst snd] in H.
      assert (Hnew : book_ok book ->
                book_ok (AddressBook.mk
                           (dict_setitem n (Record.mk (mkField n) [] None)
                              (AddressBook.data book)))).
      { intros Hok. apply (book_ok_with_record n (new_record n) book Hok);
          [now apply record_ok_new_record | reflexivity]. }
      destruct (negb (phone =? "")%string).
      * pose proof (record_ok_add_phone phone (new_record n)) as Hrec.
        pose proof (Record_add_phone_name phone (new_record n)) as Hname.
        pose proof (add_phone_raise_class phone (new_record n)) as Hclass.
        unfold new_record in Hrec, Hname, Hclass.
        assert (Hk : forall record' : Record.t,
                  record_ok record' = true ->
                  Record.name record' = mkField n -> book_ok book ->
                  book_ok (AddressBook.mk
                             (dict_setitem n record'
                                (dict_setitem n (Record.mk (mkField n) [] None)
                                   (AddressBook.data book))))).
        { intros record' Hr' Hn' Hok.
          apply (book_ok_with_record n record' _ (Hnew Hok) Hr').
          now rewrite Hn'. }
        destruct (Record.add_phone phone (Record.mk (mkField n) [] None))
          as [[[]|e] record']; simpl in *; inversion H; subst; clear H.
        -- split; [not_other_texts|]. intros Hok.
           apply Hk; auto. apply Hrec. now apply (record_ok_new_record n).
        -- rewrite (Hclass e eq_refl). split; [not_other_texts|]. intros Hok.
           apply Hk; auto. apply Hrec. now apply (record_ok_new_record n).
      * simpl in H. inversion H; subst. split; [not_other_texts | exact Hnew].
    + simpl in H. inversion H; subst. split; [not_other_texts | auto].
Qed.

(** X20: whatever the arguments and the directory, none of the eight
    handlers ever answers with the text that [input_error] provides for
    [KeyError], "Contact not found...", or with the one for [IndexError]:
    the only exception the handlers meet is [ValueError], so every failure,
    a missing contact in [delete_contact] included, is answered "Give me
    name and phone please.". *)
Theorem X20_fallback_texts (now : datetime) (args : list string) (h : handler)
    (book book' : AddressBook.t) (r : reply) :
  In h (all_handlers now args) ->
  h book = Some (r, book') ->
  r <> Text "Contact not found..."
  /\ r <> Text "Enter a valid command with necessary arguments.".
Proof.
  intros Hin H.
  assert (W : well_behaved h).
  { unfold all_handlers in Hin. simpl in Hin.
    destruct Hin as [<-|[<-|[<-|[<-|[<-|[<-|[<-|[<-|[]]]]]]]]];
      auto using add_contact_well_behaved, change_contact_well_behaved,
        delete_number_well_behaved, delete_contact_well_behaved,
        show_phone_well_behaved, add_birthday_well_behaved,
        show_birthday_well_behaved, birthdays_well_behaved. }
  apply (W book r book' H).
Qed.

Lemma X20_fallback_texts_witness :
  Text ValueError_text <> Text "Contact not found..."
  /\ Text ValueError_text <> Text "Enter a valid command with necessary arguments.".
Proof.
  apply (X20_fallback_texts june_now ["ann"] (delete_contact ["ann"])
           bob_book bob_book (Text ValueError_text)).
  - simpl. auto.
  - reflexivity.
Defined.

(* ===================================================================== *)
(** * [main]: what a session keeps, and how it ends *)
(* ===================================================================== *)

Lemma print_reply_ok h book printed book' :
  well_behaved h ->
  print_reply h book = Some (Next printed book') ->
  book_ok book -> book_ok book'.
Proof.
  intros W H. unfold print_reply in H.
  destruct (h book) as [[r b1]|] eqn:E; [|discriminate H].
  inversion H; subst. apply (W book r book' E).
Qed.

Lemma dispatch_ok now command args book printed book' :
  dispatch now command args book = Some (Next printed book') ->
  book_ok book -> book_ok book'.
Proof.
  unfold dispatch.
  repeat match goal with
         | |- context [if ?c then _ else _] => destruct c
         end;
    try (intros H; inversion H; subst; now auto);
    eauto using print_reply_ok, add_contact_well_behaved, change_contact_well_behaved,
      delete_number_well_behaved, delete_contact_well_behaved,
      show_phone_well_behaved, add_birthday_well_behaved,
      show_birthday_well_behaved, birthdays_well_behaved.
Qed.

Lemma main_loop_ok inputs :
  forall book events book',
    book_ok book -> main_loop inputs book = (events, Waiting book') -> book_ok book'.
Proof.
  induction inputs as [|[now line] rest IH]; intros book events book' Hok; simpl.
  - intros H; inversion H; subst. exact Hok.
  - destruct (parse_input line) as [[command args]|e]; [|discriminate].
    destruct (dispatch now command args book) as [[printed|printed book1]|] eqn:E;
      try discriminate.
    destruct (main_loop rest book1) as [events1 e1] eqn:E1.
    intros H; inversion H; subst.
    apply (IH book1 events1 book' (dispatch_ok _ _ _ _ _ _ E Hok) E1).
Qed.

(** X21: whatever lines the user has entered, when [main] waits for the
    next line the directory it has built has pairwise different keys, and
    every record in it is stored under its own name, has a name of at
    least two characters, and holds only phones that [Phone] accepts (ten
    digits) and, if any, a birthday that is a valid calendar date. *)
Theorem X21_main_invariant (inputs : list (datetime * string))
    (events : list event) (book : AddressBook.t) :
  main inputs = (events, Waiting book) ->
  NoDup (keys book)
  /\ forall key record,
       AddressBook.find key book = Some record ->
       value (Record.name record) = key
       /\ 2 <= len key
       /\ (forall p, In p (Record.phones record) ->
             Phone.__init__ (value p) = Return p)
       /\ (forall b, Record.birthday record = Some b -> valid_date (value b) = true).
Proof.
  unfold main. destruct (main_loop inputs AddressBook.empty) as [events1 e1] eqn:E.
  intros H; inversion H; subst.
  pose proof (main_loop_ok inputs _ _ _ book_ok_empty E) as Hok.
  split; [apply Hok|].
  intros key record Hfind.
  destruct (find_book_ok _ _ _ Hok Hfind) as [Hk Hr].
  unfold record_ok in Hr. rewrite !andb_true_iff in Hr.
  destruct Hr as [[Hl Hp] Hb]. split; [exact Hk|].
  split; [rewrite <- Hk; now apply Z.leb_le|]. split.
  - intros p Hin. rewrite forallb_forall in Hp. specialize (Hp p Hin).
    unfold phone_valid in Hp. apply andb_true_iff in Hp. destruct Hp as [H1 H2].
    unfold Phone.__init__. rewrite H1, H2. now destruct p.
  - intros b Eb. now rewrite Eb in Hb.
Qed.

Lemma X21_main_invariant_witness :
  NoDup (keys (AddressBook.mk
                 [("John", Record.mk (mkField "John") [mkField "1234567890"] None)])).
Proof.
  apply (X21_main_invariant [(june_now, "add john 1234567890")]
           [Printed "Welcome to the assistant bot!";
            Prompt "Enter a command: "; Printed "Contact added.";
            Prompt "Enter a command: "]
           (AddressBook.mk
              [("John", Record.mk (mkField "John") [mkField "1234567890"] None)])).
  reflexivity.
Defined.




(* ===================================================================== *)
(** * Names are taken without regard to letter case *)
(* ===================================================================== *)





